(** * RegistroAcademicoKeilo: tuition payment status and dashboard statistics

    A shallow embedding of the payment-status computations of the three
    pages that derive it (the student detail page, the payments page and
    the dashboard), of the dashboard's average-grade statistic, and of the
    loading, filtering and registration code around them.

    Numbers.  The store holds [DECIMAL(10,2)] and [DECIMAL(5,2)] values;
    here such a value is the integer number of its hundredths (300.30 is
    [30030]).  The pages read every one of them through [Number(...)],
    which yields the IEEE-754 double nearest to the decimal, and compute on
    doubles.  Module [IEEE] is that arithmetic: a double is the integer of
    its units of 2^-1074 (every finite double is such an integer with at
    most 53 significant bits), the order of doubles is the order of these
    integers, and each operation rounds its exact result to the nearest
    double, a tie going to the even mantissa, with gradual underflow
    ([round53_nearest] below: no double is nearer to the exact result than
    the one it is rounded to).  Overflow to an infinity (magnitudes of
    2^1024 and more), [NaN] and the sign of zero are outside the model.

    Strings.  A string is the UTF-8 text of its literal; [utf16_length]
    counts the UTF-16 code units that JavaScript's [length] counts.

    Objects used as dictionaries ([Record<string, number>]) are finite maps
    from strings; identifiers are the store's UUID strings, so no key is a
    property inherited from [Object.prototype]. *)

From Stdlib Require Import ZArith QArith Qround Qabs Lqa Lia Permutation.
From stdpp Require Import gmap strings list fin_maps.

Local Open Scope Z_scope.

(** ** IEEE-754 binary64 arithmetic, round to nearest even *)

Module IEEE.

(** A double, as the integer of its units of 2^-1074. *)
Definition number := Z.

(** The number 1 in these units. *)
Definition scale : Z := 2 ^ 1074.

(** The rational a double stands for. *)
Definition value (x : number) : Q := inject_Z x / inject_Z scale.

(** The integer nearest to a rational, a tie going to the even one. *)
Definition round_half_even (q : Q) : Z :=
  let f := Qfloor q in
  match Qcompare (q - inject_Z f) (1 # 2) with
  | Lt => f
  | Gt => f + 1
  | Eq => if Z.even f then f else f + 1
  end.

(** Rounding of a rational that is not negative to 53 significant bits:
    below 2^53 to an integer, above to a multiple of the power of two that
    leaves 53 bits. *)
Definition round53_pos (q : Q) : Z :=
  let sh := Z.max 0 (Z.log2 (Qfloor q) - 52) in
  round_half_even (q / inject_Z (2 ^ sh)) * 2 ^ sh.

(** The double nearest to a number of units. *)
Definition round53 (q : Q) : Z :=
  if Qle_bool 0 q then round53_pos q else - round53_pos (- q).

(** The double nearest to a rational, and to an integer. *)
Definition of_Q (q : Q) : number := round53 (q * inject_Z scale).
Definition of_Z (k : Z) : number := round53 (inject_Z (k * scale)).

(** [x + y], [x - y], [x * y] and [x / y] on doubles.  The pages divide
    by the number of grades, after testing that it is positive, and by 10:
    a division by 0 does not occur. *)
Definition add (x y : number) : number := round53 (inject_Z (x + y)).
Definition sub (x y : number) : number := round53 (inject_Z (x - y)).
Definition mul (x y : number) : number :=
  round53 (inject_Z (x * y) / inject_Z scale).
Definition div (x y : number) : number :=
  round53 (inject_Z (x * scale) / inject_Z y).

(** An integer of at most 53 significant bits: the integers that are
    doubles. *)
Definition is_double (x : Z) : Prop :=
  exists k j, x = k * 2 ^ j /\ Z.abs k <= 2 ^ 53 /\ 0 <= j.

End IEEE.

(** ** JavaScript primitives used by the pages *)

Module JS.

(** [Number(x)] on a decimal of the store, given in hundredths: the double
    nearest to it. *)
Definition Number (hundredths : Z) : IEEE.number :=
  IEEE.of_Q (inject_Z hundredths / 100)%Q.

(** [a >= b], [a > b] and [a < b]. *)
Definition geb (a b : IEEE.number) : bool := b <=? a.
Definition gtb (a b : IEEE.number) : bool := b <? a.
Definition ltb (a b : IEEE.number) : bool := a <? b.

(** Truthiness of a number: [0] is falsy, every other number is truthy. *)
Definition truthy (x : IEEE.number) : bool := negb (x =? 0).

(** [obj[key] || 0]: a missing property reads as [undefined], which is
    falsy, and so is a stored [0]. *)
Definition or_zero (v : option IEEE.number) : IEEE.number :=
  match v with
  | Some x => if truthy x then x else 0
  | None => 0
  end.

(** [Math.round(x)]: the integer nearest to [x], a tie going to the
    integer above. *)
Definition Math_round (x : IEEE.number) : IEEE.number :=
  IEEE.of_Z (Qfloor (IEEE.value x + (1 # 2))%Q).

End JS.

Import JS.

(** ** Rows of the store, restricted to the columns the pages read;
    amounts, tuitions and grades in hundredths *)

Record Student := mkStudent { id : string; total_tuition : Z }.
Record Payment := mkPayment { student_id : string; amount : Z }.
Record Grade := mkGrade { grade : Z }.

(** The status label: ["Paid"], ["Partial Payment"], ["Unpaid"]. *)
Inductive PaymentStatus := Paid | PartialPayment | Unpaid.

#[global] Instance PaymentStatus_eq_dec : EqDecision PaymentStatus.
Proof. solve_decision. Defined.

(** The query [from("payments").eq("student_id", sid)]: the rows of the
    payments table whose student identifier is exactly [sid], in the order
    of the table. *)
Definition payments_of (sid : string) (table : list Payment) : list Payment :=
  filter (fun p => student_id p = sid) table.

(** ** StudentDetail.tsx *)

Module StudentDetail.

(** [payments.reduce((sum, payment) => sum + Number(payment.amount), 0)] *)
Definition totalPaid (payments : list Payment) : IEEE.number :=
  fold_left (fun sum payment => IEEE.add sum (Number (amount payment)))
    payments 0.

Definition balance (student : Student) (payments : list Payment)
  : IEEE.number :=
  IEEE.sub (Number (total_tuition student)) (totalPaid payments).

Definition paymentStatus (student : Student) (payments : list Payment)
  : PaymentStatus :=
  if geb (totalPaid payments) (Number (total_tuition student)) then Paid
  else if gtb (totalPaid payments) 0 then PartialPayment
  else Unpaid.

End StudentDetail.

(** ** The payments page ([Payments], second component of Grades.tsx) *)

Module Payments.

Record StudentWithPayments := mkStudentWithPayments
  { student : Student; totalPaid : IEEE.number; status : PaymentStatus }.

(** One step of [payments.forEach]: add the amount to the entry of the
    payment's student. *)
Definition add_payment (studentPayments : gmap string IEEE.number)
    (payment : Payment) : gmap string IEEE.number :=
  <[student_id payment :=
      IEEE.add (or_zero (studentPayments !! student_id payment))
        (Number (amount payment))]>
    studentPayments.

Definition studentPayments (payments : list Payment)
  : gmap string IEEE.number :=
  fold_left add_payment payments ∅.

Definition with_status (studentPayments : gmap string IEEE.number)
    (s : Student) : StudentWithPayments :=
  let totalPaid := or_zero (studentPayments !! id s) in
  let totalTuition := Number (total_tuition s) in
  let status :=
    if geb totalPaid totalTuition then Paid
    else if gtb totalPaid 0 then PartialPayment
    else Unpaid in
  {| student := s; totalPaid := totalPaid; status := status |}.

Definition calculatePaymentStatus (students : list Student)
    (payments : list Payment) : list StudentWithPayments :=
  map (with_status (studentPayments payments)) students.

(** The "Balance" cell of a table row. *)
Definition balance (row : StudentWithPayments) : IEEE.number :=
  IEEE.sub (Number (total_tuition (student row))) (totalPaid row).

End Payments.

(** ** The dashboard ([Dashboard], loadStats and statCards) *)

Module Dashboard.

Record Stats := mkStats
  { totalStudents : nat;
    totalPayments : IEEE.number;
    pendingPayments : nat;
    averageGrade : IEEE.number }.

(** The two variables the first loop updates. *)
Record Acc := mkAcc
  { totalPaid : IEEE.number; paymentsByStudent : gmap string IEEE.number }.

Definition payment_step (st : Acc) (payment : Payment) : Acc :=
  {| totalPaid := IEEE.add (totalPaid st) (Number (amount payment));
     paymentsByStudent :=
       <[student_id payment :=
           IEEE.add (or_zero (paymentsByStudent st !! student_id payment))
             (Number (amount payment))]> (paymentsByStudent st) |}.

Definition payments_loop (payments : list Payment) : Acc :=
  fold_left payment_step payments
    {| totalPaid := 0; paymentsByStudent := ∅ |}.

(** The test of the second loop: [paid < Number(student.total_tuition)]. *)
Definition is_pending (paymentsByStudent : gmap string IEEE.number)
    (student : Student) : bool :=
  let paid := or_zero (paymentsByStudent !! id student) in
  ltb paid (Number (total_tuition student)).

Definition student_step (paymentsByStudent : gmap string IEEE.number)
    (pendingCount : nat) (student : Student) : nat :=
  if is_pending paymentsByStudent student then S pendingCount else pendingCount.

Definition students_loop (paymentsByStudent : gmap string IEEE.number)
    (students : list Student) : nat :=
  fold_left (student_step paymentsByStudent) students 0%nat.

(** [grades.length > 0 ? grades.reduce(...) / grades.length : 0] *)
Definition avgGrade (grades : list Grade) : IEEE.number :=
  if (0 <? length grades)%nat
  then IEEE.div
         (fold_left (fun sum g => IEEE.add sum (Number (grade g))) grades 0)
         (IEEE.of_Z (Z.of_nat (length grades)))
  else 0.

(** The statistics stored by [loadStats]; [studentsCount] is the result
    of the separate count query, [null] when it failed. *)
Definition loadStats (studentsCount : option nat) (students : list Student)
    (payments : list Payment) (grades : list Grade) : Stats :=
  let st := payments_loop payments in
  let pendingCount := students_loop (paymentsByStudent st) students in
  {| totalStudents := default 0%nat studentsCount;
     totalPayments := totalPaid st;
     pendingPayments := pendingCount;
     averageGrade :=
       IEEE.div (Math_round (IEEE.mul (avgGrade grades) (IEEE.of_Z 10)))
         (IEEE.of_Z 10) |}.

(** What a card shows: a number or a text. *)
Inductive CardValue := NumberValue (x : IEEE.number) | TextValue (s : string).

(** [stats.averageGrade || "N/A"] *)
Definition averageGradeCard (stats : Stats) : CardValue :=
  if truthy (averageGrade stats) then NumberValue (averageGrade stats)
  else TextValue "N/A".

End Dashboard.

(** ** Reference notions the statements are phrased with *)

(** The exact sum of a sequence of decimals, in hundredths. *)
Definition sum (xs : list Z) : Z := foldr Z.add 0 xs.

(** The amounts of a list of payment records. *)
Definition amounts (payments : list Payment) : list Z := map amount payments.

(** The sum of the magnitudes of a sequence of decimals. *)
Definition sum_abs (xs : list Z) : Z := foldr (fun x s => Z.abs x + s) 0 xs.

(** A decimal that is a whole number of currency units. *)
Definition whole_unit (x : Z) : Prop := x mod 100 = 0.

(** Amounts of whole currency units whose magnitudes add up to at most
    2^45 units: every partial sum of such amounts is a double, and far
    enough from the doubles of the decimals next to it for a comparison
    with a decimal of two places to come out as on the decimals. *)
Definition whole_units (xs : list Z) : Prop :=
  Forall whole_unit xs /\ sum_abs xs <= 100 * 2 ^ 45.

(** The precedence rule of the status classification: Paid when the total
    paid is at least the tuition, else PartialPayment when the total paid
    is positive, else Unpaid.  Both arguments are in the same unit. *)
Definition classify (totalTuition totalPaid : Z) : PaymentStatus :=
  if decide (totalTuition <= totalPaid) then Paid
  else if decide (0 < totalPaid) then PartialPayment
  else Unpaid.

(** The same rule as three implications. *)
Definition follows_precedence (totalTuition totalPaid : Z)
    (st : PaymentStatus) : Prop :=
  (totalTuition <= totalPaid -> st = Paid) /\
  (~ totalTuition <= totalPaid -> 0 < totalPaid -> st = PartialPayment) /\
  (~ totalTuition <= totalPaid -> ~ 0 < totalPaid -> st = Unpaid).

(** A status that counts as pending. *)
Definition pending_status (st : PaymentStatus) : bool :=
  match st with
  | Paid => false
  | PartialPayment | Unpaid => true
  end.

(** What one student has paid, computed on its own: the amounts of the
    records carrying exactly the student's identifier, added one by one in
    the order of the table (0 when there is none). *)
Definition paid_of (table : list Payment) (s : Student) : IEEE.number :=
  StudentDetail.totalPaid (payments_of (id s) table).

(** The balance of one student computed on its own: the tuition minus
    what the student has paid. *)
Definition balance_of (table : list Payment) (s : Student) : IEEE.number :=
  IEEE.sub (Number (total_tuition s)) (paid_of table s).

(** The number of students whose own balance is strictly positive. *)
Definition countPending (students : list Student) (table : list Payment)
  : nat :=
  length (filter (fun s => 0 < balance_of table s) students).



(** The payment records whose student identifier is the identifier of one
    of the given students. *)
Definition matched (students : list Student) (table : list Payment)
  : list Payment :=
  filter (fun p => student_id p ∈ map id students) table.




(** Rounding to an integer, a tie going up. *)
Definition round_half_up (x : Q) : Z := Qfloor (x + (1 # 2))%Q.


(** ** The status badge and the status filter *)

Module Badge.

(** The text of a status, as the pages write it. *)
Definition label (st : PaymentStatus) : string :=
  match st with
  | Paid => "Paid"
  | PartialPayment => "Partial Payment"
  | Unpaid => "Unpaid"
  end.

(** [getStatusColor], the same [switch] on the student detail page and on
    the payments page. *)
Definition getStatusColor (status : string) : string :=
  if decide (status = "Paid") then "bg-success text-success-foreground"
  else if decide (status = "Partial Payment")
       then "bg-warning text-warning-foreground"
  else if decide (status = "Unpaid")
       then "bg-destructive text-destructive-foreground"
  else "".

End Badge.

Module PaymentsView.

(** [filteredStudents] of the payments page: every row for the filter
    ["all"], else the rows whose status text is the filter. *)
Definition filteredStudents (filterStatus : string)
    (studentsWithPayments : list Payments.StudentWithPayments)
  : list Payments.StudentWithPayments :=
  if decide (filterStatus = "all") then studentsWithPayments
  else filter (fun s => Badge.label (Payments.status s) = filterStatus)
         studentsWithPayments.

End PaymentsView.

(** The rank of a status, from nothing paid to paid in full. *)
Definition status_rank (st : PaymentStatus) : nat :=
  match st with
  | Unpaid => 0
  | PartialPayment => 1
  | Paid => 2
  end.

(** The payments table with one more record, after the others. *)
Definition record_payment (table : list Payment) (payment : Payment)
  : list Payment :=
  table ++ [payment].

(** ** Answers of the store *)

Module Supabase.

(** The answer to a query: [data] is [null] when the query failed, and
    [error], here its message, is [null] when it succeeded. *)
Record Response (A : Type) := mkResponse
  { data : option A; error : option string }.

Arguments mkResponse {A} _ _.
Arguments data {A} _.
Arguments error {A} _.

End Supabase.

(** ** The dashboard with the answers of its queries *)

Module DashboardQueries.

(** [loadStats] reads only [data] of each answer: [payments?.forEach] and
    [students?.forEach] skip a [null], and [grades && ...] takes the
    branch [0] for it. *)
Definition loadStats (studentsCount : option nat)
    (students : Supabase.Response (list Student))
    (payments : Supabase.Response (list Payment))
    (grades : Supabase.Response (list Grade)) : Dashboard.Stats :=
  Dashboard.loadStats studentsCount
    (default [] (Supabase.data students))
    (default [] (Supabase.data payments))
    (default [] (Supabase.data grades)).






End DashboardQueries.

(** ** Loading the student detail page *)

Module StudentDetailPage.

(** The state of the component that the payment summary reads. *)
Record State := mkState
  { student : option Student; payments : list Payment; loading : bool }.

(** The state before the first load. *)
Definition initial : State :=
  {| student := None; payments := []; loading := true |}.

(** [loadStudentData]: only the error of the student query is thrown and
    reported, and the handler sets no state; of the payments answer only
    [data] is read.  The result is the new state and the error
    notification, when there is one. *)
Definition loadStudentData (studentRes : Supabase.Response Student)
    (paymentsRes : Supabase.Response (list Payment)) (st : State)
  : State * option string :=
  match Supabase.error studentRes with
  | Some message =>
      ({| student := student st; payments := payments st; loading := false |},
       Some ("Error loading student data: " +:+ message))
  | None =>
      ({| student := Supabase.data studentRes;
          payments := default [] (Supabase.data paymentsRes);
          loading := false |},
       None)
  end.

(** What the component renders. *)
Inductive View :=
  | Spinner
  | StudentNotFound
  | Summary (totalPaid balance : IEEE.number) (paymentStatus : PaymentStatus)
      (badge : string) (noPaymentsRecorded : bool).

Definition render (st : State) : View :=
  if loading st then Spinner
  else match student st with
       | None => StudentNotFound
       | Some s =>
           let paymentStatus := StudentDetail.paymentStatus s (payments st) in
           Summary (StudentDetail.totalPaid (payments st))
             (StudentDetail.balance s (payments st))
             paymentStatus
             (Badge.getStatusColor (Badge.label paymentStatus))
             (Nat.eqb (length (payments st)) 0)
       end.

(** [payment.notes || "-"] and [grade.observations || "-"]. *)
Definition text_or_dash (text : option string) : string :=
  match text with
  | Some s => if String.eqb s "" then "-" else s
  | None => "-"
  end.

End StudentDetailPage.

(** ** Loading and submitting on the payments page *)

Module PaymentsPage.

Record State := mkState
  { students : list Student; payments : list Payment; loading : bool }.

(** [loadData]: the error of either answer is thrown before any state is
    set. *)
Definition loadData (studentsRes : Supabase.Response (list Student))
    (paymentsRes : Supabase.Response (list Payment)) (st : State)
  : State * option string :=
  match Supabase.error studentsRes with
  | Some message =>
      ({| students := students st; payments := payments st; loading := false |},
       Some ("Error loading data: " +:+ message))
  | None =>
      match Supabase.error paymentsRes with
      | Some message =>
          ({| students := students st; payments := payments st;
              loading := false |},
           Some ("Error loading data: " +:+ message))
      | None =>
          ({| students := default [] (Supabase.data studentsRes);
              payments := default [] (Supabase.data paymentsRes);
              loading := false |},
           None)
      end
  end.

(** The rows of the table: the effect recomputes them from the students and
    the payments of the state. *)
Definition studentsWithPayments (st : State)
  : list Payments.StudentWithPayments :=
  Payments.calculatePaymentStatus (students st) (payments st).

(** [formData.notes || null] and [formData.observations || null]. *)
Definition text_or_null (text : string) : option string :=
  if String.eqb text "" then None else Some text.

End PaymentsPage.

(** ** The students page *)

Module Students.

(** The registration form.  [totalTuition] is the decimal typed into the
    tuition field, in hundredths: the field is a required number input
    with step 0.01. *)
Record FormData := mkFormData
  { firstName : string;
    lastName : string;
    idNumber : string;
    dateOfBirth : string;
    gradeLevel : string;
    totalTuition : Z;
    parentName : string;
    parentIdNumber : string;
    parentPhone : string;
    parentAddress : string }.

(** The UTF-16 code units of the character that a byte of UTF-8 text
    starts: none for a continuation byte, two for the first byte of a
    four-byte sequence (a character outside the basic plane, written as a
    surrogate pair), one otherwise. *)
Definition utf16_units (b : Ascii.ascii) : nat :=
  let n := Ascii.nat_of_ascii b in
  if (n <? 128)%nat then 1%nat
  else if (n <? 192)%nat then 0%nat
  else if (n <? 240)%nat then 1%nat
  else 2%nat.

(** [value.length]: the number of UTF-16 code units of a text. *)
Fixpoint utf16_length (value : string) : nat :=
  match value with
  | EmptyString => 0%nat
  | String b rest => (utf16_units b + utf16_length rest)%nat
  end.

(** [z.string().min(n, message)]: the issue raised for a value, if any. *)
Definition string_min (n : nat) (message value : string) : list string :=
  if (utf16_length value <? n)%nat then [message] else [].

(** [z.number().min(bound, message)] on the number [parseFloat] read from
    the field. *)
Definition number_min (bound : IEEE.number) (message : string) (value : Z)
  : list string :=
  if ltb (Number value) bound then [message] else [].

(** The issues [studentSchema.parse] raises, in the order of the keys of
    the schema; the optional address raises none. *)
Definition studentSchema (f : FormData) : list string :=
  string_min 2 "First name must be at least 2 characters" (firstName f)
  ++ string_min 2 "Last name must be at least 2 characters" (lastName f)
  ++ string_min 5 "ID number must be at least 5 characters" (idNumber f)
  ++ string_min 1 "Date of birth is required" (dateOfBirth f)
  ++ string_min 1 "Grade level is required" (gradeLevel f)
  ++ number_min 0 "Tuition must be positive" (totalTuition f)
  ++ string_min 2 "Parent name must be at least 2 characters" (parentName f)
  ++ string_min 5 "Parent ID must be at least 5 characters" (parentIdNumber f)
  ++ string_min 10 "Phone must be at least 10 characters" (parentPhone f).

(** A row of the students table, with the columns the page writes and
    searches; the tuition in hundredths. *)
Record StudentRow := mkStudentRow
  { first_name : string;
    last_name : string;
    id_number : string;
    date_of_birth : string;
    grade_level : string;
    total_tuition : Z;
    created_by : string }.

(** The row inserted into the parents table (its [id_number] is
    [parent_id_number] here). *)
Record ParentRow := mkParentRow
  { student_id : string;
    full_name : string;
    parent_id_number : string;
    cell_phone : string;
    address : option string }.

Inductive Toast :=
  | ToastError (message : string)
  | ToastSuccess (message : string).

(** What one submission does: the rows it sends to the store, the
    notification, and whether the list is loaded again. *)
Record Outcome := mkOutcome
  { studentInsert : option StudentRow;
    parentInsert : option ParentRow;
    toast : Toast;
    reloaded : bool }.

(** [error.message || "Error registering student"] *)
Definition message_or_default (message : string) : string :=
  if String.eqb message "" then "Error registering student" else message.

(** [handleSubmit].  [user] is the identifier of the signed-in user, if
    any; [studentAnswer] is what the store answers to the insertion of the
    student, the identifier of the new row or the message of an error;
    [parentError] is the error of the insertion of the parent, if any. *)
Definition handleSubmit (formData : FormData) (user : option string)
    (studentAnswer : string + string) (parentError : option string)
  : Outcome :=
  match studentSchema formData with
  | message :: _ =>
      {| studentInsert := None; parentInsert := None;
         toast := ToastError message; reloaded := false |}
  | [] =>
      match user with
      | None =>
          {| studentInsert := None; parentInsert := None;
             toast := ToastError (message_or_default "Not authenticated");
             reloaded := false |}
      | Some user_id =>
          let student :=
            {| first_name := firstName formData;
               last_name := lastName formData;
               id_number := idNumber formData;
               date_of_birth := dateOfBirth formData;
               grade_level := gradeLevel formData;
               total_tuition := totalTuition formData;
               created_by := user_id |} in
          match studentAnswer with
          | inr message =>
              {| studentInsert := Some student; parentInsert := None;
                 toast := ToastError (message_or_default message);
                 reloaded := false |}
          | inl new_id =>
              let parent :=
                {| student_id := new_id;
                   full_name := parentName formData;
                   parent_id_number := parentIdNumber formData;
                   cell_phone := parentPhone formData;
                   address :=
                     PaymentsPage.text_or_null (parentAddress formData) |} in
              match parentError with
              | Some message =>
                  {| studentInsert := Some student; parentInsert := Some parent;
                     toast := ToastError (message_or_default message);
                     reloaded := false |}
              | None =>
                  {| studentInsert := Some student; parentInsert := Some parent;
                     toast := ToastSuccess "Student registered successfully!";
                     reloaded := true |}
              end
          end
      end
  end.

(** [s.includes(sub)]: [sub] occurs in [s]. *)
Fixpoint includes (s sub : string) : bool :=
  String.prefix sub s
  || match s with
     | EmptyString => false
     | String _ rest => includes rest sub
     end.

(** The test of the search box on one student; [toLowerCase] stands for
    the method of that name. *)
Definition matches (toLowerCase : string -> string) (searchTerm : string)
    (student : StudentRow) : bool :=
  includes (toLowerCase (first_name student)) (toLowerCase searchTerm)
  || includes (toLowerCase (last_name student)) (toLowerCase searchTerm)
  || includes (toLowerCase (id_number student)) (toLowerCase searchTerm)
  || includes (toLowerCase (grade_level student)) (toLowerCase searchTerm).

Definition filteredStudents (toLowerCase : string -> string)
    (searchTerm : string) (students : list StudentRow) : list StudentRow :=
  List.filter (matches toLowerCase searchTerm) students.

End Students.

(** ** Rounding to a double *)

Lemma round_half_even_comp q q' :
  (q == q')%Q -> IEEE.round_half_even q = IEEE.round_half_even q'.
Proof.
  intros H. unfold IEEE.round_half_even.
  rewrite (Qfloor_comp _ _ H).
  assert (E : (q - inject_Z (Qfloor q') == q' - inject_Z (Qfloor q'))%Q)
    by (rewrite H; reflexivity).
  rewrite (Qcompare_comp _ _ E _ _ (Qeq_refl (1 # 2))). reflexivity.
Qed.

Lemma round_half_even_bounds q :
  Qfloor q <= IEEE.round_half_even q <= Qfloor q + 1.
Proof.
  unfold IEEE.round_half_even.
  destruct (Qcompare _ _); [destruct (Z.even _) | |]; lia.
Qed.

Lemma round_half_even_Z k : IEEE.round_half_even (inject_Z k) = k.
Proof.
  unfold IEEE.round_half_even. rewrite Qfloor_Z.
  assert (E : (inject_Z k - inject_Z k ?= 1 # 2)%Q = Lt).
  { rewrite <- Qlt_alt. generalize (inject_Z k). intros x. lra. }
  rewrite E. reflexivity.
Qed.

Lemma pow2_pos n : 0 < 2 ^ n \/ n < 0.
Proof.
  destruct (Z.lt_ge_cases n 0);
    [right; lia | left; apply Z.pow_pos_nonneg; lia].
Qed.

Lemma shift_nonneg q : 0 <= Z.max 0 (Z.log2 (Qfloor q) - 52).
Proof. lia. Qed.

Lemma inject_Z_pos k : 0 < k -> (0 < inject_Z k)%Q.
Proof. intros H. change 0%Q with (inject_Z 0). rewrite <- Zlt_Qlt. exact H. Qed.

(** The shift is at most the magnitude. *)
Lemma shift_le q :
  1 <= Qfloor q ->
  2 ^ Z.max 0 (Z.log2 (Qfloor q) - 52) <= Qfloor q.
Proof.
  intros H. pose proof (Z.log2_spec (Qfloor q) ltac:(lia)) as [Hlo _].
  pose proof (Z.log2_nonneg (Qfloor q)).
  destruct (Z.max_spec 0 (Z.log2 (Qfloor q) - 52)) as [[_ ->] | [_ ->]].
  - etransitivity; [| exact Hlo]. apply Z.pow_le_mono_r; lia.
  - simpl. lia.
Qed.

Lemma round53_pos_ge_1 q : (1 <= q)%Q -> 1 <= IEEE.round53_pos q.
Proof.
  intros H. unfold IEEE.round53_pos.
  assert (Hm : 1 <= Qfloor q).
  { change 1 with (Qfloor 1). by apply Qfloor_resp_le. }
  set (sh := Z.max 0 (Z.log2 (Qfloor q) - 52)).
  assert (Hsh : 0 <= sh) by (unfold sh; lia).
  assert (Hp : 0 < 2 ^ sh) by (apply Z.pow_pos_nonneg; lia).
  assert (Hle : 2 ^ sh <= Qfloor q) by (apply shift_le; exact Hm).
  assert (Hq : (1 <= q / inject_Z (2 ^ sh))%Q).
  { apply Qle_shift_div_l; [by apply inject_Z_pos |].
    rewrite Qmult_1_l. apply Qle_trans with (inject_Z (Qfloor q)).
    - rewrite <- Zle_Qle. exact Hle.
    - apply Qfloor_le. }
  assert (Hf : 1 <= Qfloor (q / inject_Z (2 ^ sh))).
  { change 1 with (Qfloor 1). by apply Qfloor_resp_le. }
  pose proof (round_half_even_bounds (q / inject_Z (2 ^ sh))). nia.
Qed.

Lemma round53_pos_comp q q' :
  (q == q')%Q -> IEEE.round53_pos q = IEEE.round53_pos q'.
Proof.
  intros H. unfold IEEE.round53_pos. rewrite (Qfloor_comp _ _ H).
  f_equal. apply round_half_even_comp. rewrite H. reflexivity.
Qed.

Lemma round53_comp q q' : (q == q')%Q -> IEEE.round53 q = IEEE.round53 q'.
Proof.
  intros H. unfold IEEE.round53.
  assert (E : Qle_bool 0 q = Qle_bool 0 q') by (rewrite H; reflexivity).
  rewrite E. destruct (Qle_bool 0 q').
  - by apply round53_pos_comp.
  - f_equal. apply round53_pos_comp. rewrite H. reflexivity.
Qed.

Lemma round53_pos_nonneg q : (0 <= q)%Q -> 0 <= IEEE.round53_pos q.
Proof.
  intros H. unfold IEEE.round53_pos.
  set (sh := Z.max 0 (Z.log2 (Qfloor q) - 52)).
  assert (Hp : 0 < 2 ^ sh) by (apply Z.pow_pos_nonneg; unfold sh; lia).
  assert (Hq : (0 <= q / inject_Z (2 ^ sh))%Q).
  { apply Qle_shift_div_l; [by apply inject_Z_pos |]. lra. }
  assert (Hf : 0 <= Qfloor (q / inject_Z (2 ^ sh))).
  { change 0 with (Qfloor 0). by apply Qfloor_resp_le. }
  pose proof (round_half_even_bounds (q / inject_Z (2 ^ sh))). nia.
Qed.

Lemma round53_pos_0 : IEEE.round53_pos 0 = 0.
Proof. reflexivity. Qed.

Lemma round53_0 q : (q == 0)%Q -> IEEE.round53 q = 0.
Proof. intros H. rewrite (round53_comp _ _ H). reflexivity. Qed.

Lemma round53_ge_1 q : (1 <= q)%Q -> 1 <= IEEE.round53 q.
Proof.
  intros H. unfold IEEE.round53.
  assert (E : Qle_bool 0 q = true) by (apply Qle_bool_iff; lra).
  rewrite E. by apply round53_pos_ge_1.
Qed.

Lemma round53_le_m1 q : (q <= -1)%Q -> IEEE.round53 q <= -1.
Proof.
  intros H. unfold IEEE.round53.
  destruct (Qle_bool 0 q) eqn:E.
  - apply Qle_bool_iff in E. lra.
  - assert (H1 : 1 <= IEEE.round53_pos (- q)) by (apply round53_pos_ge_1; lra).
    lia.
Qed.

Lemma round53_nonneg q : (0 <= q)%Q -> 0 <= IEEE.round53 q.
Proof.
  intros H. unfold IEEE.round53.
  assert (E : Qle_bool 0 q = true) by (by apply Qle_bool_iff).
  rewrite E. by apply round53_pos_nonneg.
Qed.

Lemma round53_nonpos q : (q <= 0)%Q -> IEEE.round53 q <= 0.
Proof.
  intros H. unfold IEEE.round53.
  destruct (Qle_bool 0 q) eqn:E.
  - apply Qle_bool_iff in E.
    assert (E0 : (q == 0)%Q) by lra.
    rewrite (round53_pos_comp _ _ E0). reflexivity.
  - assert (H1 : 0 <= IEEE.round53_pos (- q))
      by (apply round53_pos_nonneg; lra).
    lia.
Qed.

(** The sign of a rounded integer is the sign of the integer. *)
Lemma round53_Z_sign k :
  (0 < k -> 0 < IEEE.round53 (inject_Z k))
  /\ (k = 0 -> IEEE.round53 (inject_Z k) = 0)
  /\ (k < 0 -> IEEE.round53 (inject_Z k) < 0).
Proof.
  split; [| split].
  - intros H. assert (1 <= IEEE.round53 (inject_Z k)); [| lia].
    apply round53_ge_1. change 1%Q with (inject_Z 1).
    rewrite <- Zle_Qle. lia.
  - intros ->. reflexivity.
  - intros H. assert (IEEE.round53 (inject_Z k) <= -1); [| lia].
    apply round53_le_m1. change (-1)%Q with (inject_Z (-1)).
    rewrite <- Zle_Qle. lia.
Qed.

Lemma round53_Z_pos_iff k : 0 < IEEE.round53 (inject_Z k) <-> 0 < k.
Proof.
  destruct (round53_Z_sign k) as (Hp & Hz & Hn).
  destruct (Z.lt_trichotomy k 0) as [H | [H | H]].
  - specialize (Hn H). lia.
  - specialize (Hz H). lia.
  - specialize (Hp H). lia.
Qed.



(** Exactness on integers with at most 53 significant bits. *)
Lemma div_pow2_exact k j sh :
  0 <= sh <= j ->
  IEEE.round_half_even (inject_Z (k * 2 ^ j) / inject_Z (2 ^ sh)) * 2 ^ sh
  = k * 2 ^ j.
Proof.
  intros [H0 H1].
  assert (Hp : 0 < 2 ^ sh) by (apply Z.pow_pos_nonneg; lia).
  assert (E : k * 2 ^ j = (k * 2 ^ (j - sh)) * 2 ^ sh).
  { rewrite <- Z.mul_assoc, <- Z.pow_add_r by lia. do 2 f_equal. lia. }
  assert (Eq : (inject_Z (k * 2 ^ j) / inject_Z (2 ^ sh)
                == inject_Z (k * 2 ^ (j - sh)))%Q).
  { rewrite E at 1. rewrite inject_Z_mult.
    pose proof (inject_Z_pos _ Hp). field. lra. }
  rewrite (round_half_even_comp _ _ Eq), round_half_even_Z. lia.
Qed.

Lemma round53_pos_exact k j :
  0 <= k < 2 ^ 53 -> 0 <= j ->
  IEEE.round53_pos (inject_Z (k * 2 ^ j)) = k * 2 ^ j.
Proof.
  intros [Hk0 Hk1] Hj. unfold IEEE.round53_pos. rewrite Qfloor_Z.
  apply div_pow2_exact. split; [lia |].
  destruct (Z.eq_dec k 0) as [-> | Hk].
  - simpl. lia.
  - rewrite Z.log2_mul_pow2 by lia.
    assert (Z.log2 k < 53) by (apply Z.log2_lt_pow2; lia). lia.
Qed.

Lemma round53_pos_exact' k j :
  0 <= k <= 2 ^ 53 -> 0 <= j ->
  IEEE.round53_pos (inject_Z (k * 2 ^ j)) = k * 2 ^ j.
Proof.
  intros [Hk0 Hk1] Hj.
  destruct (Z.eq_dec k (2 ^ 53)) as [-> | Hk].
  - replace (2 ^ 53 * 2 ^ j) with (2 ^ 52 * 2 ^ (j + 1))
      by (rewrite <- !Z.pow_add_r by lia; f_equal; lia).
    apply round53_pos_exact; lia.
  - apply round53_pos_exact; lia.
Qed.

Lemma round53_exact k j :
  Z.abs k <= 2 ^ 53 -> 0 <= j ->
  IEEE.round53 (inject_Z (k * 2 ^ j)) = k * 2 ^ j.
Proof.
  intros Hk Hj. unfold IEEE.round53.
  assert (Hp : 0 < 2 ^ j) by (apply Z.pow_pos_nonneg; lia).
  destruct (Qle_bool 0 (inject_Z (k * 2 ^ j))) eqn:E.
  - apply Qle_bool_iff in E. change 0%Q with (inject_Z 0) in E.
    rewrite <- Zle_Qle in E. apply round53_pos_exact'; nia.
  - assert (Hneg : k * 2 ^ j < 0).
    { destruct (Z.lt_ge_cases (k * 2 ^ j) 0) as [H | H]; [exact H |].
      assert (Qle_bool 0 (inject_Z (k * 2 ^ j)) = true); [| congruence].
      apply Qle_bool_iff. change 0%Q with (inject_Z 0). by rewrite <- Zle_Qle. }
    rewrite <- inject_Z_opp.
    replace (- (k * 2 ^ j)) with ((- k) * 2 ^ j) by lia.
    rewrite round53_pos_exact' by nia. lia.
Qed.

(** Every rounded value has at most 53 significant bits. *)
Lemma round53_pos_is_double q :
  (0 <= q)%Q -> IEEE.is_double (IEEE.round53_pos q).
Proof.
  intros Hq. unfold IEEE.round53_pos.
  set (m := Qfloor q). set (sh := Z.max 0 (Z.log2 m - 52)).
  assert (Hm : 0 <= m).
  { unfold m. change 0 with (Qfloor 0). by apply Qfloor_resp_le. }
  assert (Hsh : 0 <= sh) by (unfold sh; lia).
  assert (Hp : 0 < 2 ^ sh) by (apply Z.pow_pos_nonneg; lia).
  exists (IEEE.round_half_even (q / inject_Z (2 ^ sh))), sh.
  split; [reflexivity |]. split; [| exact Hsh].
  assert (Hlt : m < 2 ^ (sh + 53)).
  { destruct (Z.eq_dec m 0) as [-> | Hne].
    - apply Z.pow_pos_nonneg; lia.
    - pose proof (Z.log2_spec m ltac:(lia)) as [_ Hhi].
      eapply Z.lt_le_trans; [exact Hhi |].
      apply Z.pow_le_mono_r; unfold sh; lia. }
  assert (Hq2 : (q < inject_Z (2 ^ (sh + 53)))%Q).
  { apply Qlt_le_trans with (inject_Z (m + 1)); [apply Qlt_floor |].
    rewrite <- Zle_Qle. lia. }
  assert (Hq3 : (q / inject_Z (2 ^ sh) < inject_Z (2 ^ 53))%Q).
  { apply Qlt_shift_div_r; [by apply inject_Z_pos |].
    rewrite <- inject_Z_mult, <- Z.pow_add_r by lia.
    replace (53 + sh) with (sh + 53) by lia. exact Hq2. }
  assert (Hq4 : (0 <= q / inject_Z (2 ^ sh))%Q).
  { apply Qle_shift_div_l; [by apply inject_Z_pos |]. lra. }
  assert (Hf0 : 0 <= Qfloor (q / inject_Z (2 ^ sh))).
  { change 0 with (Qfloor 0). by apply Qfloor_resp_le. }
  assert (Hf1 : Qfloor (q / inject_Z (2 ^ sh)) < 2 ^ 53).
  { rewrite Zlt_Qlt. eapply Qle_lt_trans; [apply Qfloor_le | exact Hq3]. }
  pose proof (round_half_even_bounds (q / inject_Z (2 ^ sh))). lia.
Qed.

Lemma round53_is_double q : IEEE.is_double (IEEE.round53 q).
Proof.
  unfold IEEE.round53. destruct (Qle_bool 0 q) eqn:E.
  - apply Qle_bool_iff in E. by apply round53_pos_is_double.
  - assert (Hq : (0 <= - q)%Q).
    { destruct (Qlt_le_dec q 0) as [H | H]; [lra |].
      apply Qle_bool_iff in H. congruence. }
    destruct (round53_pos_is_double _ Hq) as (k & j & -> & Hk & Hj).
    exists (- k), j. split; [lia |]. split; [lia | exact Hj].
Qed.

Lemma round53_idem x : IEEE.is_double x -> IEEE.round53 (inject_Z x) = x.
Proof. intros (k & j & -> & Hk & Hj). by apply round53_exact. Qed.

Lemma is_double_0 : IEEE.is_double 0.
Proof. exists 0, 0. repeat split; lia. Qed.

Lemma add_0_l x : IEEE.is_double x -> IEEE.add 0 x = x.
Proof. intros H. unfold IEEE.add. rewrite Z.add_0_l. by apply round53_idem. Qed.

Lemma sub_0_r x : IEEE.is_double x -> IEEE.sub x 0 = x.
Proof. intros H. unfold IEEE.sub. rewrite Z.sub_0_r. by apply round53_idem. Qed.

Lemma add_comm x y : IEEE.add x y = IEEE.add y x.
Proof. unfold IEEE.add. by rewrite Z.add_comm. Qed.

(** The sign of a difference. *)
Lemma sub_pos_iff x y : 0 < IEEE.sub x y <-> y < x.
Proof. unfold IEEE.sub. rewrite round53_Z_pos_iff. lia. Qed.



Lemma sub_nonpos_iff x y : IEEE.sub x y <= 0 <-> x <= y.
Proof. pose proof (sub_pos_iff x y). lia. Qed.

Lemma round53_pos_ge_pow2 q n :
  0 <= n -> (inject_Z (2 ^ n) <= q)%Q -> 2 ^ n <= IEEE.round53_pos q.
Proof.
  intros Hn Hq. unfold IEEE.round53_pos.
  set (m := Qfloor q). set (sh := Z.max 0 (Z.log2 m - 52)).
  assert (Hpn : 0 < 2 ^ n) by (apply Z.pow_pos_nonneg; lia).
  assert (Hm : 2 ^ n <= m).
  { unfold m. rewrite <- (Qfloor_Z (2 ^ n)). by apply Qfloor_resp_le. }
  assert (Hsh : 0 <= sh) by (unfold sh; lia).
  assert (Hp : 0 < 2 ^ sh) by (apply Z.pow_pos_nonneg; lia).
  pose proof (round_half_even_bounds (q / inject_Z (2 ^ sh))) as [Hb _].
  destruct (Z.le_gt_cases sh n) as [Hle | Hgt].
  - assert (Hf : 2 ^ (n - sh) <= Qfloor (q / inject_Z (2 ^ sh))).
    { rewrite <- (Qfloor_Z (2 ^ (n - sh))). apply Qfloor_resp_le.
      apply Qle_shift_div_l; [by apply inject_Z_pos |].
      rewrite <- inject_Z_mult, <- Z.pow_add_r by lia.
      replace (n - sh + sh) with n by lia. exact Hq. }
    replace (2 ^ n) with (2 ^ (n - sh) * 2 ^ sh)
      by (rewrite <- Z.pow_add_r by lia; f_equal; lia).
    apply Z.mul_le_mono_nonneg_r; lia.
  - assert (Hsh' : sh = Z.log2 m - 52) by (unfold sh in *; lia).
    pose proof (Z.log2_spec m ltac:(lia)) as [Hlo _].
    assert (Hf : 2 ^ 52 <= Qfloor (q / inject_Z (2 ^ sh))).
    { rewrite <- (Qfloor_Z (2 ^ 52)). apply Qfloor_resp_le.
      apply Qle_shift_div_l; [by apply inject_Z_pos |].
      rewrite <- inject_Z_mult, <- Z.pow_add_r by lia.
      replace (52 + sh) with (Z.log2 m) by lia.
      apply Qle_trans with (inject_Z m);
        [by rewrite <- Zle_Qle | apply Qfloor_le]. }
    assert (2 ^ n <= 2 ^ sh) by (apply Z.pow_le_mono_r; lia).
    assert (1 <= 2 ^ 52) by (apply Z.pow_le_mono_r with (b := 0); lia).
    nia.
Qed.

(** Rounding does not cross a double: a number at least (at most) a
    double is rounded to a double at least (at most) that one. *)
Lemma round_half_even_le_Z q m :
  (q <= inject_Z m)%Q -> IEEE.round_half_even q <= m.
Proof.
  intros H.
  assert (Hf : Qfloor q <= m).
  { rewrite <- (Qfloor_Z m). by apply Qfloor_resp_le. }
  destruct (Z.eq_dec (Qfloor q) m) as [E | NE].
  - assert (Eq : (q == inject_Z m)%Q).
    { apply Qle_antisym; [exact H |]. rewrite <- E. apply Qfloor_le. }
    rewrite (round_half_even_comp _ _ Eq), round_half_even_Z. lia.
  - pose proof (round_half_even_bounds q). lia.
Qed.

Lemma round53_pos_ge_double q k j :
  0 <= k <= 2 ^ 53 -> 0 <= j ->
  (inject_Z (k * 2 ^ j) <= q)%Q -> k * 2 ^ j <= IEEE.round53_pos q.
Proof.
  intros [Hk0 Hk1] Hj Hq.
  assert (Hpj : 0 < 2 ^ j) by (apply Z.pow_pos_nonneg; lia).
  destruct (Z.eq_dec k 0) as [-> | Hk].
  { rewrite Z.mul_0_l in *. apply round53_pos_nonneg. exact Hq. }
  assert (Hm : k * 2 ^ j <= Qfloor q).
  { rewrite <- (Qfloor_Z (k * 2 ^ j)). by apply Qfloor_resp_le. }
  destruct (Z.le_gt_cases (Z.max 0 (Z.log2 (Qfloor q) - 52)) j) as [Hle | Hgt].
  - unfold IEEE.round53_pos.
    set (sh := Z.max 0 (Z.log2 (Qfloor q) - 52)) in *.
    assert (Hsh : 0 <= sh) by (unfold sh; lia).
    assert (Hp : 0 < 2 ^ sh) by (apply Z.pow_pos_nonneg; lia).
    assert (E : k * 2 ^ j = (k * 2 ^ (j - sh)) * 2 ^ sh).
    { rewrite <- Z.mul_assoc, <- Z.pow_add_r by lia. do 2 f_equal. lia. }
    assert (Hf : k * 2 ^ (j - sh) <= Qfloor (q / inject_Z (2 ^ sh))).
    { rewrite <- (Qfloor_Z (k * 2 ^ (j - sh))). apply Qfloor_resp_le.
      apply Qle_shift_div_l; [by apply inject_Z_pos |].
      rewrite <- inject_Z_mult, <- E. exact Hq. }
    pose proof (round_half_even_bounds (q / inject_Z (2 ^ sh))) as [Hb _].
    rewrite E. apply Z.mul_le_mono_nonneg_r; lia.
  - assert (Hlog : j + 53 <= Z.log2 (Qfloor q)) by lia.
    assert (Hpow : k * 2 ^ j <= 2 ^ (j + 53)).
    { rewrite Z.pow_add_r by lia. nia. }
    etransitivity; [exact Hpow |].
    apply round53_pos_ge_pow2; [lia |].
    apply Qle_trans with (inject_Z (Qfloor q)); [| apply Qfloor_le].
    rewrite <- Zle_Qle.
    pose proof (Z.log2_spec (Qfloor q) ltac:(nia)) as [Hlo _].
    etransitivity; [| exact Hlo]. apply Z.pow_le_mono_r; lia.
Qed.

Lemma round53_pos_le_double q k j :
  0 <= k <= 2 ^ 53 -> 0 <= j -> (0 <= q)%Q ->
  (q <= inject_Z (k * 2 ^ j))%Q -> IEEE.round53_pos q <= k * 2 ^ j.
Proof.
  intros [Hk0 Hk1] Hj Hq0 Hq.
  assert (Hpj : 0 < 2 ^ j) by (apply Z.pow_pos_nonneg; lia).
  assert (Hm0 : 0 <= Qfloor q).
  { change 0 with (Qfloor 0). by apply Qfloor_resp_le. }
  assert (Hm : Qfloor q <= k * 2 ^ j).
  { rewrite <- (Qfloor_Z (k * 2 ^ j)). by apply Qfloor_resp_le. }
  destruct (Z.le_gt_cases (Z.max 0 (Z.log2 (Qfloor q) - 52)) j) as [Hle | Hgt].
  - unfold IEEE.round53_pos.
    set (sh := Z.max 0 (Z.log2 (Qfloor q) - 52)) in *.
    assert (Hsh : 0 <= sh) by (unfold sh; lia).
    assert (Hp : 0 < 2 ^ sh) by (apply Z.pow_pos_nonneg; lia).
    assert (E : k * 2 ^ j = (k * 2 ^ (j - sh)) * 2 ^ sh).
    { rewrite <- Z.mul_assoc, <- Z.pow_add_r by lia. do 2 f_equal. lia. }
    assert (Hf : IEEE.round_half_even (q / inject_Z (2 ^ sh))
                 <= k * 2 ^ (j - sh)).
    { apply round_half_even_le_Z.
      apply Qle_shift_div_r; [by apply inject_Z_pos |].
      rewrite <- inject_Z_mult, <- E. exact Hq. }
    rewrite E. apply Z.mul_le_mono_nonneg_r; lia.
  - assert (Hlog : j + 53 <= Z.log2 (Qfloor q)) by lia.
    assert (Hpos : 0 < Qfloor q).
    { destruct (Z.eq_dec (Qfloor q) 0) as [E0 | NE]; [| lia].
      rewrite E0 in Hlog. simpl in Hlog. lia. }
    pose proof (Z.log2_spec (Qfloor q) Hpos) as [Hlo _].
    assert (Hge : 2 ^ (j + 53) <= Qfloor q).
    { etransitivity; [| exact Hlo]. apply Z.pow_le_mono_r; lia. }
    assert (Hpow : k * 2 ^ j <= 2 ^ (j + 53)).
    { rewrite Z.pow_add_r by lia. nia. }
    assert (Eq : (q == inject_Z (1 * 2 ^ (j + 53)))%Q).
    { rewrite Z.mul_1_l. apply Qle_antisym.
      - eapply Qle_trans; [exact Hq |]. rewrite <- Zle_Qle. exact Hpow.
      - apply Qle_trans with (inject_Z (Qfloor q)); [| apply Qfloor_le].
        rewrite <- Zle_Qle. exact Hge. }
    rewrite (round53_pos_comp _ _ Eq), round53_pos_exact' by lia.
    lia.
Qed.

Lemma Qle_bool_false q : Qle_bool 0 q = false -> (q < 0)%Q.
Proof.
  intros E. destruct (Qlt_le_dec q 0) as [H | H]; [exact H |].
  apply Qle_bool_iff in H. congruence.
Qed.

Lemma round53_ge_double q x :
  IEEE.is_double x -> (inject_Z x <= q)%Q -> x <= IEEE.round53 q.
Proof.
  intros (k & j & -> & Hk & Hj) Hq.
  assert (Hpj : 0 < 2 ^ j) by (apply Z.pow_pos_nonneg; lia).
  unfold IEEE.round53. destruct (Qle_bool 0 q) eqn:E.
  - apply Qle_bool_iff in E.
    destruct (Z.le_gt_cases 0 k) as [Hk0 | Hk0].
    + apply round53_pos_ge_double; [lia | lia | exact Hq].
    + pose proof (round53_pos_nonneg q E). nia.
  - apply Qle_bool_false in E.
    assert (Hneg : k * 2 ^ j < 0).
    { rewrite Zlt_Qlt. eapply Qle_lt_trans; [exact Hq | exact E]. }
    assert (Hle : IEEE.round53_pos (- q) <= (- k) * 2 ^ j).
    { apply round53_pos_le_double; [nia | lia | lra |].
      replace (- k * 2 ^ j) with (- (k * 2 ^ j)) by lia.
      rewrite inject_Z_opp. lra. }
    lia.
Qed.

Lemma round53_le_double q x :
  IEEE.is_double x -> (q <= inject_Z x)%Q -> IEEE.round53 q <= x.
Proof.
  intros (k & j & -> & Hk & Hj) Hq.
  assert (Hpj : 0 < 2 ^ j) by (apply Z.pow_pos_nonneg; lia).
  unfold IEEE.round53. destruct (Qle_bool 0 q) eqn:E.
  - apply Qle_bool_iff in E.
    assert (Hnn : 0 <= k * 2 ^ j).
    { rewrite Zle_Qle. eapply Qle_trans; [exact E | exact Hq]. }
    apply round53_pos_le_double; [nia | lia | exact E | exact Hq].
  - apply Qle_bool_false in E.
    destruct (Z.le_gt_cases 0 k) as [Hk0 | Hk0].
    + assert (0 <= IEEE.round53_pos (- q)) by (apply round53_pos_nonneg; lra).
      nia.
    + assert (Hge : (- k) * 2 ^ j <= IEEE.round53_pos (- q)).
      { apply round53_pos_ge_double; [lia | lia |].
        replace (- k * 2 ^ j) with (- (k * 2 ^ j)) by lia.
        rewrite inject_Z_opp. lra. }
      lia.
Qed.


(** Rounding is monotone. *)
Lemma round_half_even_mono q q' :
  (q <= q')%Q -> IEEE.round_half_even q <= IEEE.round_half_even q'.
Proof.
  intros H.
  assert (Hf : Qfloor q <= Qfloor q') by (by apply Qfloor_resp_le).
  pose proof (round_half_even_bounds q) as Hb.
  pose proof (round_half_even_bounds q') as Hb'.
  destruct (Z.eq_dec (Qfloor q) (Qfloor q')) as [E | NE]; [| lia].
  unfold IEEE.round_half_even. rewrite <- E.
  destruct (Qcompare_spec (q - inject_Z (Qfloor q)) (1 # 2)) as [H1 | H1 | H1];
    destruct (Qcompare_spec (q' - inject_Z (Qfloor q)) (1 # 2))
      as [H2 | H2 | H2];
    try destruct (Z.even (Qfloor q)); try lia; lra.
Qed.

Lemma round53_pos_mono q q' :
  (0 <= q)%Q -> (q <= q')%Q -> IEEE.round53_pos q <= IEEE.round53_pos q'.
Proof.
  intros H0 H.
  assert (Hm0 : 0 <= Qfloor q).
  { change 0 with (Qfloor 0). by apply Qfloor_resp_le. }
  assert (Hf : Qfloor q <= Qfloor q') by (by apply Qfloor_resp_le).
  pose proof (Z.log2_le_mono _ _ Hf) as Hlog.
  destruct (Z.eq_dec (Z.max 0 (Z.log2 (Qfloor q) - 52))
              (Z.max 0 (Z.log2 (Qfloor q') - 52))) as [E | NE].
  - unfold IEEE.round53_pos. rewrite <- E.
    set (sh := Z.max 0 (Z.log2 (Qfloor q) - 52)).
    assert (Hp : 0 < 2 ^ sh) by (apply Z.pow_pos_nonneg; unfold sh; lia).
    apply Z.mul_le_mono_nonneg_r; [lia |].
    apply round_half_even_mono.
    apply Qle_shift_div_l; [by apply inject_Z_pos |].
    unfold Qdiv. rewrite <- Qmult_assoc, (Qmult_comm (/ _)), Qmult_inv_r,
      Qmult_1_r; [exact H |].
    pose proof (inject_Z_pos _ Hp). lra.
  - set (L := Z.log2 (Qfloor q')) in *.
    assert (HL : 53 <= L) by lia.
    assert (Hpos : 0 < Qfloor q').
    { destruct (Z.eq_dec (Qfloor q') 0) as [E0 | N0]; [| lia].
      unfold L in HL. rewrite E0 in HL. simpl in HL. lia. }
    pose proof (Z.log2_spec (Qfloor q') Hpos) as [Hlo _]. fold L in Hlo.
    assert (Hge : 2 ^ L <= IEEE.round53_pos q').
    { apply round53_pos_ge_pow2; [lia |].
      apply Qle_trans with (inject_Z (Qfloor q')); [| apply Qfloor_le].
      by rewrite <- Zle_Qle. }
    assert (Hlt : Qfloor q + 1 <= 2 ^ L).
    { destruct (Z.eq_dec (Qfloor q) 0) as [E0 | N0].
      - rewrite E0. assert (0 < 2 ^ L) by (apply Z.pow_pos_nonneg; lia). lia.
      - pose proof (Z.log2_spec (Qfloor q) ltac:(lia)) as [_ Hhi].
        assert (2 ^ (Z.log2 (Qfloor q) + 1) <= 2 ^ L)
          by (apply Z.pow_le_mono_r; lia).
        lia. }
    assert (Hle : IEEE.round53_pos q <= 1 * 2 ^ L).
    { apply round53_pos_le_double; [lia | lia | exact H0 |].
      rewrite Z.mul_1_l.
      apply Qle_trans with (inject_Z (Qfloor q + 1)).
      - apply Qlt_le_weak, Qlt_floor.
      - by rewrite <- Zle_Qle. }
    lia.
Qed.

Lemma round53_mono q q' : (q <= q')%Q -> IEEE.round53 q <= IEEE.round53 q'.
Proof.
  intros H. unfold IEEE.round53.
  destruct (Qle_bool 0 q) eqn:E; destruct (Qle_bool 0 q') eqn:E'.
  - apply Qle_bool_iff in E. by apply round53_pos_mono.
  - apply Qle_bool_iff in E. apply Qle_bool_false in E'. lra.
  - apply Qle_bool_false in E. apply Qle_bool_iff in E'.
    assert (0 <= IEEE.round53_pos (- q)) by (apply round53_pos_nonneg; lra).
    assert (0 <= IEEE.round53_pos q') by (by apply round53_pos_nonneg).
    lia.
  - apply Qle_bool_false in E, E'.
    assert (IEEE.round53_pos (- q') <= IEEE.round53_pos (- q))
      by (apply round53_pos_mono; lra).
    lia.
Qed.

Lemma add_mono x x' y y' :
  x <= x' -> y <= y' -> IEEE.add x y <= IEEE.add x' y'.
Proof.
  intros Hx Hy. unfold IEEE.add. apply round53_mono.
  rewrite <- Zle_Qle. lia.
Qed.

(** Rounding goes to a nearest double: no double is nearer to the number
    than the one it is rounded to. *)
Lemma Qabs_le_iff x y : (Qabs x <= y)%Q <-> (- y <= x)%Q /\ (x <= y)%Q.
Proof. apply Qabs_Qle_condition. Qed.

Lemma Qabs_ge x y : (y <= x)%Q \/ (y <= - x)%Q -> (y <= Qabs x)%Q.
Proof.
  intros [H | H].
  - eapply Qle_trans; [exact H | apply Qle_Qabs].
  - eapply Qle_trans; [exact H |]. rewrite <- Qabs_opp. apply Qle_Qabs.
Qed.

Lemma Qabs_le_between r q m d :
  (- d <= r - q)%Q -> (r - q <= d)%Q ->
  (d <= m - q)%Q \/ (d <= - (m - q))%Q ->
  (Qabs (r - q) <= Qabs (m - q))%Q.
Proof.
  intros H1 H2 H3. apply Qle_trans with d.
  - apply Qabs_le_iff. by split.
  - by apply Qabs_ge.
Qed.

Lemma round_half_even_nearest q m :
  (Qabs (inject_Z (IEEE.round_half_even q) - q) <= Qabs (inject_Z m - q))%Q.
Proof.
  pose proof (Qfloor_le q) as Hlo. pose proof (Qlt_floor q) as Hhi.
  rewrite inject_Z_plus in Hhi. change (inject_Z 1) with 1%Q in Hhi.
  assert (Hm : m <= Qfloor q \/ Qfloor q + 1 <= m) by lia.
  assert (Hm' : (inject_Z m <= inject_Z (Qfloor q))%Q
                \/ (inject_Z (Qfloor q) + 1 <= inject_Z m)%Q).
  { destruct Hm as [H | H]; [left | right].
    - by rewrite <- Zle_Qle.
    - change 1%Q with (inject_Z 1). rewrite <- inject_Z_plus.
      by rewrite <- Zle_Qle. }
  clear Hm. revert Hlo Hhi Hm'. unfold IEEE.round_half_even.
  generalize (inject_Z m). intros M.
  assert (Hdown : (q - inject_Z (Qfloor q) <= 1 # 2)%Q ->
            (inject_Z (Qfloor q) <= q)%Q ->
            (M <= inject_Z (Qfloor q))%Q \/ (inject_Z (Qfloor q) + 1 <= M)%Q ->
            (Qabs (inject_Z (Qfloor q) - q) <= Qabs (M - q))%Q).
  { generalize (inject_Z (Qfloor q)). intros F H Hlo Hm.
    apply (Qabs_le_between _ _ _ (q - F)); [lra | lra |].
    destruct Hm; [right | left]; lra. }
  assert (Hup : (1 # 2 <= q - inject_Z (Qfloor q))%Q ->
            (q < inject_Z (Qfloor q) + 1)%Q ->
            (M <= inject_Z (Qfloor q))%Q \/ (inject_Z (Qfloor q) + 1 <= M)%Q ->
            (Qabs (inject_Z (Qfloor q + 1) - q) <= Qabs (M - q))%Q).
  { rewrite inject_Z_plus. change (inject_Z 1) with 1%Q.
    generalize (inject_Z (Qfloor q)). intros F H Hhi Hm.
    apply (Qabs_le_between _ _ _ (F + 1 - q)); [lra | lra |].
    destruct Hm; [right | left]; lra. }
  intros Hlo Hhi Hm.
  destruct (Qcompare_spec (q - inject_Z (Qfloor q)) (1 # 2)) as [H | H | H].
  - destruct (Z.even (Qfloor q)); [apply Hdown | apply Hup]; try assumption; lra.
  - apply Hdown; try assumption; lra.
  - apply Hup; try assumption; lra.
Qed.

Lemma Qabs_scale a c : (0 < c)%Q -> (Qabs (a * c) == Qabs a * c)%Q.
Proof.
  intros H. rewrite Qabs_Qmult. rewrite (Qabs_pos c) by lra. reflexivity.
Qed.

(** Among the multiples of a power of two. *)
Lemma round_scaled_nearest q sh m :
  0 <= sh ->
  (Qabs (inject_Z (IEEE.round_half_even (q / inject_Z (2 ^ sh)) * 2 ^ sh) - q)
   <= Qabs (inject_Z (m * 2 ^ sh) - q))%Q.
Proof.
  intros Hsh.
  assert (Hp : 0 < 2 ^ sh) by (apply Z.pow_pos_nonneg; lia).
  pose proof (inject_Z_pos _ Hp) as Hq.
  pose proof (round_half_even_nearest (q / inject_Z (2 ^ sh)) m) as H.
  rewrite !inject_Z_mult.
  set (P := inject_Z (2 ^ sh)) in *.
  set (R := inject_Z (IEEE.round_half_even (q / P))) in *.
  assert (E1 : (R * P - q == (R - q / P) * P)%Q) by (field; lra).
  assert (E2 : (inject_Z m * P - q == (inject_Z m - q / P) * P)%Q)
    by (field; lra).
  rewrite E1, E2, !Qabs_scale by exact Hq.
  apply Qmult_le_compat_r; [exact H | lra].
Qed.

(** A double with a finer spacing than the one of [q] lies below the power
    of two under [q], which is a multiple of that spacing. *)
Lemma round53_pos_nearest q k j :
  (0 <= q)%Q -> 0 <= k <= 2 ^ 53 -> 0 <= j ->
  (Qabs (inject_Z (IEEE.round53_pos q) - q)
   <= Qabs (inject_Z (k * 2 ^ j) - q))%Q.
Proof.
  intros Hq [Hk0 Hk1] Hj.
  assert (Hm0 : 0 <= Qfloor q).
  { change 0 with (Qfloor 0). by apply Qfloor_resp_le. }
  assert (Hpj : 0 < 2 ^ j) by (apply Z.pow_pos_nonneg; lia).
  destruct (Z.le_gt_cases (Z.max 0 (Z.log2 (Qfloor q) - 52)) j) as [Hle | Hgt].
  - unfold IEEE.round53_pos.
    set (sh := Z.max 0 (Z.log2 (Qfloor q) - 52)) in *.
    assert (Hsh : 0 <= sh) by (unfold sh; lia).
    assert (E : k * 2 ^ j = (k * 2 ^ (j - sh)) * 2 ^ sh).
    { rewrite <- Z.mul_assoc, <- Z.pow_add_r by lia. do 2 f_equal. lia. }
    rewrite E. by apply round_scaled_nearest.
  - assert (Hsh : Z.max 0 (Z.log2 (Qfloor q) - 52) = Z.log2 (Qfloor q) - 52)
      by lia.
    assert (Hpos : 0 < Qfloor q).
    { destruct (Z.eq_dec (Qfloor q) 0) as [E0 | NE]; [| lia].
      rewrite E0 in Hgt. simpl in Hgt. lia. }
    pose proof (Z.log2_spec (Qfloor q) Hpos) as [Hlo _].
    set (L := Z.log2 (Qfloor q)) in *.
    assert (Hnear : (Qabs (inject_Z (IEEE.round53_pos q) - q)
                     <= Qabs (inject_Z (2 ^ 52 * 2 ^ (L - 52)) - q))%Q).
    { unfold IEEE.round53_pos. fold L. rewrite Hsh.
      apply round_scaled_nearest. lia. }
    eapply Qle_trans; [exact Hnear |].
    rewrite <- Z.pow_add_r by lia. replace (52 + (L - 52)) with L by lia.
    assert (Hx : k * 2 ^ j <= 2 ^ L).
    { assert (2 ^ (j + 53) <= 2 ^ L) by (apply Z.pow_le_mono_r; lia).
      rewrite Z.pow_add_r in * by lia. nia. }
    assert (HB : (inject_Z (2 ^ L) <= q)%Q).
    { apply Qle_trans with (inject_Z (Qfloor q)); [| apply Qfloor_le].
      by rewrite <- Zle_Qle. }
    rewrite Zle_Qle in Hx. revert Hx HB.
    generalize (inject_Z (k * 2 ^ j)) (inject_Z (2 ^ L)). intros X B Hx HB.
    apply (Qabs_le_between _ _ _ (q - B)); [lra | lra | right; lra].
Qed.

Lemma round53_nearest q x :
  IEEE.is_double x ->
  (Qabs (inject_Z (IEEE.round53 q) - q) <= Qabs (inject_Z x - q))%Q.
Proof.
  intros (k & j & -> & Hk & Hj).
  assert (Hpj : 0 < 2 ^ j) by (apply Z.pow_pos_nonneg; lia).
  unfold IEEE.round53. destruct (Qle_bool 0 q) eqn:E.
  - apply Qle_bool_iff in E.
    destruct (Z.le_gt_cases 0 k) as [Hk0 | Hk0].
    + apply round53_pos_nearest; [exact E | lia | exact Hj].
    + pose proof (round53_pos_nearest q 0 0 E ltac:(lia) ltac:(lia)) as H0.
      change (0 * 2 ^ 0) with 0 in H0.
      eapply Qle_trans; [exact H0 |].
      assert (Hx : (inject_Z (k * 2 ^ j) <= 0)%Q).
      { change 0%Q with (inject_Z 0). rewrite <- Zle_Qle. nia. }
      revert Hx. generalize (inject_Z (k * 2 ^ j)). intros X Hx.
      change (inject_Z 0) with 0%Q.
      apply (Qabs_le_between _ _ _ q); [lra | lra | right; lra].
  - apply Qle_bool_false in E.
    assert (Hq : (0 <= - q)%Q) by lra.
    rewrite inject_Z_opp.
    assert (Eo : forall a b : Q, (Qabs (- a - b) == Qabs (a - - b))%Q).
    { intros a b. rewrite <- (Qabs_opp (a - - b)).
      apply Qabs_wd. ring. }
    rewrite Eo.
    destruct (Z.le_gt_cases k 0) as [Hk0 | Hk0].
    + pose proof (round53_pos_nearest (- q) (- k) j Hq ltac:(lia) Hj) as H.
      eapply Qle_trans; [exact H |].
      replace (- k * 2 ^ j) with (- (k * 2 ^ j)) by lia.
      rewrite inject_Z_opp, Eo.
      apply Qle_lteq. right. apply Qabs_wd. ring.
    + pose proof (round53_pos_nearest (- q) 0 0 Hq ltac:(lia) ltac:(lia)) as H0.
      change (0 * 2 ^ 0) with 0 in H0.
      eapply Qle_trans; [exact H0 |].
      assert (Hx : (0 <= inject_Z (k * 2 ^ j))%Q).
      { change 0%Q with (inject_Z 0). rewrite <- Zle_Qle. nia. }
      revert Hx. generalize (inject_Z (k * 2 ^ j)). intros X Hx.
      change (inject_Z 0) with 0%Q.
      apply Qle_trans with (- q)%Q.
      * apply Qabs_le_iff. split; lra.
      * apply Qabs_ge. left. lra.
Qed.

(** Half way between two integers, rounding goes to the even one. *)
Lemma round_half_even_tie n :
  Z.even (IEEE.round_half_even (inject_Z n + (1 # 2))) = true.
Proof.
  assert (Ef : Qfloor (inject_Z n + (1 # 2)) = n).
  { pose proof (Qfloor_le (inject_Z n + (1 # 2))) as Hlo.
    pose proof (Qlt_floor (inject_Z n + (1 # 2))) as Hhi.
    rewrite inject_Z_plus in Hhi. change (inject_Z 1) with 1%Q in Hhi.
    assert (H1 : Qfloor (inject_Z n + (1 # 2)) < n + 1).
    { rewrite Zlt_Qlt, inject_Z_plus. change (inject_Z 1) with 1%Q.
      revert Hlo. generalize (inject_Z (Qfloor (inject_Z n + (1 # 2)))).
      generalize (inject_Z n). intros a b Hlo. lra. }
    assert (H2 : n <= Qfloor (inject_Z n + (1 # 2))).
    { rewrite <- (Qfloor_Z n) at 1. apply Qfloor_resp_le.
      generalize (inject_Z n). intros a. lra. }
    lia. }
  unfold IEEE.round_half_even. rewrite Ef.
  assert (E : (inject_Z n + (1 # 2) - inject_Z n ?= 1 # 2)%Q = Eq).
  { rewrite <- Qeq_alt. ring. }
  rewrite E. destruct (Z.even n) eqn:En; [exact En |].
  rewrite Z.even_add, En. reflexivity.
Qed.

(** ** Arithmetic of the JavaScript primitives *)

Lemma geb_true a b : geb a b = true <-> b <= a.
Proof. unfold geb. apply Z.leb_le. Qed.

Lemma geb_false a b : geb a b = false <-> a < b.
Proof. unfold geb. rewrite Z.leb_gt. reflexivity. Qed.

Lemma gtb_true a b : gtb a b = true <-> b < a.
Proof. unfold gtb. apply Z.ltb_lt. Qed.

Lemma gtb_false a b : gtb a b = false <-> a <= b.
Proof. unfold gtb. rewrite Z.ltb_ge. reflexivity. Qed.

Lemma ltb_true a b : ltb a b = true <-> a < b.
Proof. unfold ltb. apply Z.ltb_lt. Qed.

Lemma ltb_false a b : ltb a b = false <-> b <= a.
Proof. unfold ltb. rewrite Z.ltb_ge. reflexivity. Qed.

(** Case analysis on every comparison of the goal. *)
Ltac js_cases :=
  repeat match goal with
         | |- context [geb ?a ?b] =>
             let E := fresh "E" in
             destruct (geb a b) eqn:E;
             [apply geb_true in E | apply geb_false in E]
         | |- context [gtb ?a ?b] =>
             let E := fresh "E" in
             destruct (gtb a b) eqn:E;
             [apply gtb_true in E | apply gtb_false in E]
         | |- context [ltb ?a ?b] =>
             let E := fresh "E" in
             destruct (ltb a b) eqn:E;
             [apply ltb_true in E | apply ltb_false in E]
         end.

(** Splitting a conjunction into all its parts. *)
Ltac split_all := repeat match goal with |- _ /\ _ => split end.

Lemma truthy_true x : truthy x = true <-> x <> 0.
Proof. unfold truthy. rewrite negb_true_iff, Z.eqb_neq. reflexivity. Qed.

Lemma truthy_false x : truthy x = false <-> x = 0.
Proof. unfold truthy. rewrite negb_false_iff, Z.eqb_eq. reflexivity. Qed.

Lemma or_zero_Some x : or_zero (Some x) = x.
Proof.
  unfold or_zero. destruct (truthy x) eqn:E; [reflexivity |].
  apply truthy_false in E. congruence.
Qed.

(** ** The double of a decimal of the store *)

Lemma scale_eq : IEEE.scale = 2 ^ 1074.
Proof. reflexivity. Qed.

Lemma scale_pos : 0 < IEEE.scale.
Proof. rewrite scale_eq. apply Z.pow_pos_nonneg; lia. Qed.

Lemma scale_ge : 128 * 2 ^ 1067 = IEEE.scale.
Proof.
  rewrite scale_eq. change 128 with (2 ^ 7).
  rewrite <- Z.pow_add_r by lia. reflexivity.
Qed.

Lemma Number_eq c :
  Number c = IEEE.round53 (inject_Z (c * IEEE.scale) / inject_Z 100).
Proof.
  unfold Number, IEEE.of_Q. apply round53_comp.
  rewrite inject_Z_mult. change (inject_Z 100) with 100%Q. field.
Qed.

Lemma Qle_div_Z_r x a b :
  0 < b -> x * b <= a -> (inject_Z x <= inject_Z a / inject_Z b)%Q.
Proof.
  intros Hb H. apply Qle_shift_div_l; [by apply inject_Z_pos |].
  rewrite <- inject_Z_mult, <- Zle_Qle. exact H.
Qed.

Lemma Qle_div_Z_l x a b :
  0 < b -> a <= x * b -> (inject_Z a / inject_Z b <= inject_Z x)%Q.
Proof.
  intros Hb H. apply Qle_shift_div_r; [by apply inject_Z_pos |].
  rewrite <- inject_Z_mult, <- Zle_Qle. exact H.
Qed.

Lemma Number_is_double c : IEEE.is_double (Number c).
Proof. apply round53_is_double. Qed.

Lemma Number_0 : Number 0 = 0.
Proof. rewrite Number_eq. apply round53_0. rewrite Z.mul_0_l. reflexivity. Qed.

Lemma Number_sign c :
  (0 < c -> 0 < Number c) /\ (c < 0 -> Number c < 0).
Proof.
  pose proof scale_pos as Hs. pose proof scale_ge as Hg.
  assert (Hp : 0 < 2 ^ 1067) by (apply Z.pow_pos_nonneg; lia).
  rewrite Number_eq. split; intros H.
  - assert (1 <= IEEE.round53 (inject_Z (c * IEEE.scale) / inject_Z 100));
      [| lia].
    apply round53_ge_1. apply (Qle_div_Z_r 1); nia.
  - assert (IEEE.round53 (inject_Z (c * IEEE.scale) / inject_Z 100) <= -1);
      [| lia].
    apply round53_le_m1. apply (Qle_div_Z_l (-1)); nia.
Qed.

Lemma Number_pos_iff c : 0 < Number c <-> 0 < c.
Proof.
  destruct (Number_sign c) as [Hp Hn]. pose proof Number_0 as H0.
  destruct (Z.lt_trichotomy c 0) as [H | [-> | H]];
    [specialize (Hn H) | | specialize (Hp H)]; lia.
Qed.

Lemma Number_neg_iff c : Number c < 0 <-> c < 0.
Proof.
  destruct (Number_sign c) as [Hp Hn]. pose proof Number_0 as H0.
  destruct (Z.lt_trichotomy c 0) as [H | [-> | H]];
    [specialize (Hn H) | | specialize (Hp H)]; lia.
Qed.

Lemma Number_zero_iff c : Number c = 0 <-> c = 0.
Proof.
  destruct (Number_sign c) as [Hp Hn]. pose proof Number_0 as H0.
  destruct (Z.lt_trichotomy c 0) as [H | [-> | H]];
    [specialize (Hn H) | | specialize (Hp H)]; lia.
Qed.

(** The sum of 0.1 and 0.2 is 0.30000000000000004, not 0.3. *)
Lemma add_tenths :
  IEEE.add (Number 10) (Number 20)
  = IEEE.of_Q (30000000000000004 # 100000000000000000)
  /\ IEEE.add (Number 10) (Number 20) <> Number 30.
Proof. split; [vm_compute; reflexivity | vm_compute; discriminate]. Qed.

(** A whole number of units of at most 53 bits is a double, and the double
    of its decimal. *)
Lemma whole_is_double n : Z.abs n <= 2 ^ 53 -> IEEE.is_double (n * IEEE.scale).
Proof. intros H. exists n, 1074. rewrite scale_eq. repeat split; lia. Qed.

Lemma Number_whole n : Z.abs n <= 2 ^ 53 -> Number (100 * n) = n * IEEE.scale.
Proof.
  intros H. rewrite Number_eq.
  assert (E : (inject_Z (100 * n * IEEE.scale) / inject_Z 100
               == inject_Z (n * 2 ^ 1074))%Q).
  { rewrite <- scale_eq, !inject_Z_mult.
    change (inject_Z 100) with 100%Q. field. }
  rewrite (round53_comp _ _ E), round53_exact, scale_eq by lia. reflexivity.
Qed.

Lemma of_Z_exact k : Z.abs k <= 2 ^ 53 -> IEEE.of_Z k = k * IEEE.scale.
Proof.
  intros H. unfold IEEE.of_Z. rewrite scale_eq. apply round53_exact; lia.
Qed.


Lemma Number_ge_whole c n :
  Z.abs n <= 2 ^ 45 -> (n * IEEE.scale <= Number c <-> 100 * n <= c).
Proof.
  intros Hn. pose proof scale_pos as Hs. pose proof scale_ge as Hg.
  assert (Hp : 0 < 2 ^ 1067) by (apply Z.pow_pos_nonneg; lia).
  assert (H53 : 2 ^ 53 = 2 ^ 45 * 256) by reflexivity.
  assert (H45 : 0 < 2 ^ 45) by (apply Z.pow_pos_nonneg; lia).
  destruct (Z.le_gt_cases (100 * n) c) as [Hle | Hgt].
  - split; [intros _; exact Hle | intros _].
    rewrite Number_eq. apply round53_ge_double.
    + apply whole_is_double. lia.
    + apply Qle_div_Z_r; nia.
  - split; [intros Hc; exfalso | lia].
    assert (Hd : IEEE.is_double ((128 * n - 1) * 2 ^ 1067)).
    { exists (128 * n - 1), 1067. repeat split; lia. }
    assert (Hge : Number c <= (128 * n - 1) * 2 ^ 1067).
    { rewrite Number_eq. apply round53_le_double; [exact Hd |].
      apply Qle_div_Z_l; nia. }
    nia.
Qed.

(** An integer divided by ten is 0 only when the integer is. *)
Lemma div_ten_zero k :
  IEEE.div (IEEE.of_Z k) (IEEE.of_Z 10) = 0 <-> k = 0.
Proof.
  pose proof scale_pos as Hs.
  assert (H53 : 10 <= 2 ^ 53) by (vm_compute; discriminate).
  assert (Hbig : 10 <= IEEE.scale).
  { rewrite scale_eq. etransitivity; [exact H53 |].
    apply Z.pow_le_mono_r; lia. }
  assert (Hone : IEEE.is_double (1 * IEEE.scale))
    by (apply whole_is_double; lia).
  assert (Hmone : IEEE.is_double (-1 * IEEE.scale))
    by (apply whole_is_double; lia).
  rewrite (of_Z_exact 10) by lia. unfold IEEE.div.
  destruct (Z.lt_trichotomy k 0) as [Hk | [-> | Hk]].
  - assert (Hx : IEEE.of_Z k <= -1 * IEEE.scale).
    { unfold IEEE.of_Z. apply round53_le_double; [exact Hmone |].
      rewrite <- Zle_Qle. nia. }
    assert (IEEE.round53
              (inject_Z (IEEE.of_Z k * IEEE.scale)
               / inject_Z (10 * IEEE.scale)) <= -1); [| lia].
    apply round53_le_m1. apply (Qle_div_Z_l (-1)); nia.
  - split; [reflexivity | intros _]. vm_compute. reflexivity.
  - assert (Hx : 1 * IEEE.scale <= IEEE.of_Z k).
    { unfold IEEE.of_Z. apply round53_ge_double; [exact Hone |].
      rewrite <- Zle_Qle. nia. }
    assert (1 <= IEEE.round53
                   (inject_Z (IEEE.of_Z k * IEEE.scale)
                    / inject_Z (10 * IEEE.scale))); [| lia].
    apply round53_ge_1. apply (Qle_div_Z_r 1); nia.
Qed.


(** ** Sums *)

Lemma sum_app xs ys : sum (xs ++ ys) = sum xs + sum ys.
Proof. induction xs as [|x xs IH]; simpl; lia. Qed.



Lemma sum_abs_nonneg xs : 0 <= sum_abs xs.
Proof. induction xs as [|x xs IH]; simpl; lia. Qed.

Lemma sum_abs_bound xs : Z.abs (sum xs) <= sum_abs xs.
Proof. induction xs as [|x xs IH]; simpl; lia. Qed.

Lemma amounts_app ps qs : amounts (ps ++ qs) = amounts ps ++ amounts qs.
Proof. apply map_app. Qed.




Lemma whole_unit_sum xs : Forall whole_unit xs -> whole_unit (sum xs).
Proof.
  unfold whole_unit. induction 1 as [| x xs Hx _ IH]; simpl; [reflexivity |].
  rewrite Z.add_mod, Hx, IH by lia. reflexivity.
Qed.




(** ** The total of a list of payments *)

Lemma totalPaid_nil : StudentDetail.totalPaid [] = 0.
Proof. reflexivity. Qed.

Lemma totalPaid_snoc payments p :
  StudentDetail.totalPaid (payments ++ [p])
  = IEEE.add (StudentDetail.totalPaid payments) (Number (amount p)).
Proof. unfold StudentDetail.totalPaid. by rewrite fold_left_app. Qed.

Lemma reduce_is_double payments acc :
  IEEE.is_double acc ->
  IEEE.is_double
    (fold_left (fun sum payment => IEEE.add sum (Number (amount payment)))
       payments acc).
Proof.
  revert acc. induction payments as [|p ps IH]; intros acc H; simpl.
  - exact H.
  - apply IH. apply round53_is_double.
Qed.

Lemma totalPaid_is_double payments :
  IEEE.is_double (StudentDetail.totalPaid payments).
Proof. apply reduce_is_double, is_double_0. Qed.

(** Adding whole numbers of units is exact as long as the sum has at most
    53 bits. *)
Lemma add_whole n m :
  Z.abs (n + m) <= 2 ^ 53 ->
  IEEE.add (n * IEEE.scale) (m * IEEE.scale) = (n + m) * IEEE.scale.
Proof.
  intros H. unfold IEEE.add.
  replace (n * IEEE.scale + m * IEEE.scale) with ((n + m) * 2 ^ 1074)
    by (rewrite scale_eq; lia).
  rewrite scale_eq. apply round53_exact; lia.
Qed.

Lemma whole_unit_div x : whole_unit x -> x = 100 * (x / 100).
Proof. unfold whole_unit. intros H. apply Z.div_exact in H; lia. Qed.

(** The accumulating loop of [reduce] on whole numbers of units adds them
    exactly. *)
Lemma reduce_whole xs n :
  Forall whole_unit xs ->
  100 * Z.abs n + sum_abs xs <= 100 * 2 ^ 53 ->
  fold_left (fun sum a => IEEE.add sum (Number a)) xs (n * IEEE.scale)
  = (n + sum xs / 100) * IEEE.scale.
Proof.
  intros Hw. revert n. induction Hw as [| x xs Hx Hw IH]; intros n Hb; simpl.
  - rewrite Z.add_0_r. reflexivity.
  - simpl in Hb. pose proof (sum_abs_nonneg xs) as Hnn.
    pose proof (whole_unit_div x Hx) as Ex.
    pose proof (whole_unit_div (sum xs) (whole_unit_sum xs Hw)) as Es.
    set (m := x / 100) in *. set (t := sum xs / 100) in *.
    rewrite Ex. rewrite Number_whole by lia.
    rewrite add_whole by lia. rewrite IH by lia.
    f_equal. rewrite Es.
    replace (100 * m + 100 * t) with ((m + t) * 100) by lia.
    rewrite Z.div_mul by lia. lia.
Qed.

Lemma fold_left_amounts payments acc :
  fold_left (fun sum payment => IEEE.add sum (Number (amount payment)))
    payments acc
  = fold_left (fun sum a => IEEE.add sum (Number a)) (amounts payments) acc.
Proof.
  revert acc. induction payments as [|p ps IH]; intros acc; simpl;
    [reflexivity | apply IH].
Qed.

(** The total of payments of whole units is the double of their exact
    sum. *)
Lemma totalPaid_whole payments :
  whole_units (amounts payments) ->
  StudentDetail.totalPaid payments = Number (sum (amounts payments))
  /\ StudentDetail.totalPaid payments
     = (sum (amounts payments) / 100) * IEEE.scale
  /\ Z.abs (sum (amounts payments) / 100) <= 2 ^ 45.
Proof.
  intros [Hw Hb].
  pose proof (sum_abs_bound (amounts payments)) as Hs.
  pose proof (whole_unit_div _ (whole_unit_sum _ Hw)) as Es.
  assert (H53 : 2 ^ 53 = 2 ^ 45 * 256) by reflexivity.
  assert (H45 : 0 < 2 ^ 45) by (apply Z.pow_pos_nonneg; lia).
  set (t := sum (amounts payments) / 100) in *.
  assert (Ht : Z.abs t <= 2 ^ 45) by lia.
  assert (E : StudentDetail.totalPaid payments = t * IEEE.scale).
  { unfold StudentDetail.totalPaid. rewrite fold_left_amounts.
    change 0 with (0 * IEEE.scale) at 1.
    rewrite reduce_whole by (try exact Hw; lia). reflexivity. }
  split; [| split; [exact E | exact Ht]].
  rewrite E, Es, Number_whole by lia. reflexivity.
Qed.

(** ** The classification rule *)


Lemma follows_precedence_classify t p st :
  follows_precedence t p st -> st = classify t p.
Proof.
  unfold classify. intros (H1 & H2 & H3).
  repeat case_decide; auto.
Qed.

(** Both pages compute [classify] from the total they obtained. *)
Lemma paymentStatus_classify student payments :
  StudentDetail.paymentStatus student payments
  = classify (Number (total_tuition student))
      (StudentDetail.totalPaid payments).
Proof.
  unfold StudentDetail.paymentStatus, classify.
  js_cases; repeat case_decide; try reflexivity; lia.
Qed.

Lemma with_status_classify m s :
  Payments.status (Payments.with_status m s)
  = classify (Number (total_tuition s)) (or_zero (m !! id s)).
Proof.
  unfold Payments.with_status, classify. simpl.
  js_cases; repeat case_decide; try reflexivity; lia.
Qed.

Lemma classify_Paid t p : classify t p = Paid <-> t <= p.
Proof.
  unfold classify.
  repeat case_decide; split; intros; try done; lia.
Qed.

Lemma classify_Unpaid t p : classify t p = Unpaid <-> p < t /\ p <= 0.
Proof.
  unfold classify.
  repeat case_decide; (split; [intros | intros [? ?]]);
    try done; try split; lia.
Qed.

Lemma classify_PartialPayment t p :
  classify t p = PartialPayment <-> p < t /\ 0 < p.
Proof.
  unfold classify.
  repeat case_decide; (split; [intros | intros [? ?]]);
    try done; try split; lia.
Qed.


(** ** Grouping the payments by student *)

Lemma payments_of_app sid ps qs :
  payments_of sid (ps ++ qs) = payments_of sid ps ++ payments_of sid qs.
Proof. apply filter_app. Qed.

Lemma payments_of_cons_eq sid p ps :
  student_id p = sid -> payments_of sid (p :: ps) = p :: payments_of sid ps.
Proof. intros H. unfold payments_of. by rewrite filter_cons_True. Qed.

Lemma payments_of_cons_ne sid p ps :
  student_id p <> sid -> payments_of sid (p :: ps) = payments_of sid ps.
Proof. intros H. unfold payments_of. by rewrite filter_cons_False. Qed.

Lemma studentPayments_snoc ps p :
  Payments.studentPayments (ps ++ [p])
  = Payments.add_payment (Payments.studentPayments ps) p.
Proof. unfold Payments.studentPayments. by rewrite fold_left_app. Qed.

(** After the grouping loop, the entry read for a student, with the
    [|| 0] default, is the total of exactly that student's payment
    records, added in the order of the table. *)
Lemma studentPayments_lookup table sid :
  or_zero (Payments.studentPayments table !! sid)
  = StudentDetail.totalPaid (payments_of sid table).
Proof.
  induction table as [|p ps IH] using rev_ind.
  - reflexivity.
  - rewrite studentPayments_snoc, payments_of_app.
    unfold Payments.add_payment.
    destruct (decide (student_id p = sid)) as [E | NE].
    + rewrite E, lookup_insert_eq, or_zero_Some, IH.
      rewrite payments_of_cons_eq by exact E.
      change (payments_of sid []) with (@nil Payment).
      by rewrite totalPaid_snoc.
    + rewrite lookup_insert_ne by exact NE.
      rewrite payments_of_cons_ne by exact NE.
      change (payments_of sid []) with (@nil Payment).
      by rewrite app_nil_r.
Qed.

(** A student without any payment record has no entry at all. *)
Lemma studentPayments_lookup_None table sid :
  payments_of sid table = [] -> Payments.studentPayments table !! sid = None.
Proof.
  induction table as [|p ps IH] using rev_ind; intros H.
  - reflexivity.
  - rewrite payments_of_app in H. apply app_eq_nil in H as [H1 H2].
    rewrite studentPayments_snoc. unfold Payments.add_payment.
    destruct (decide (student_id p = sid)) as [E | NE].
    + rewrite payments_of_cons_eq in H2 by exact E. discriminate.
    + rewrite lookup_insert_ne by exact NE. by apply IH.
Qed.

(** The dashboard's first loop builds the same dictionary as the payments
    page, and its running total is the total of all the records. *)
Lemma payments_loop_snoc ps p :
  Dashboard.payments_loop (ps ++ [p])
  = Dashboard.payment_step (Dashboard.payments_loop ps) p.
Proof. unfold Dashboard.payments_loop. by rewrite fold_left_app. Qed.

Lemma paymentsByStudent_studentPayments table :
  Dashboard.paymentsByStudent (Dashboard.payments_loop table)
  = Payments.studentPayments table.
Proof.
  induction table as [|p ps IH] using rev_ind.
  - reflexivity.
  - rewrite payments_loop_snoc, studentPayments_snoc. simpl. by rewrite IH.
Qed.

Lemma payments_loop_totalPaid table :
  Dashboard.totalPaid (Dashboard.payments_loop table)
  = StudentDetail.totalPaid table.
Proof.
  induction table as [|p ps IH] using rev_ind.
  - reflexivity.
  - rewrite payments_loop_snoc, totalPaid_snoc. simpl. by rewrite IH.
Qed.

(** The second loop counts the students that pass its test. *)
Lemma students_loop_acc m students n :
  fold_left (Dashboard.student_step m) students n
  = (n + length (filter (fun s => Dashboard.is_pending m s = true)
                   students))%nat.
Proof.
  revert n. induction students as [|s ss IH]; intros n; simpl.
  - lia.
  - rewrite IH. unfold Dashboard.student_step.
    destruct (Dashboard.is_pending m s) eqn:E.
    + rewrite filter_cons_True by exact E. simpl. lia.
    + rewrite filter_cons_False by congruence. lia.
Qed.

Lemma students_loop_count m students :
  Dashboard.students_loop m students
  = length (filter (fun s => Dashboard.is_pending m s = true) students).
Proof. unfold Dashboard.students_loop. by rewrite students_loop_acc. Qed.

(** The dashboard's test on a student, in terms of that student's own
    payment records. *)
Lemma is_pending_paid table s :
  Dashboard.is_pending (Payments.studentPayments table) s = true
  <-> paid_of table s < Number (total_tuition s).
Proof.
  unfold Dashboard.is_pending, paid_of. rewrite ltb_true.
  by rewrite studentPayments_lookup.
Qed.

Lemma is_pending_spec table s :
  Dashboard.is_pending (Payments.studentPayments table) s = true
  <-> 0 < balance_of table s.
Proof. rewrite is_pending_paid. unfold balance_of. by rewrite sub_pos_iff. Qed.

Lemma students_loop_countPending students table :
  Dashboard.students_loop (Payments.studentPayments table) students
  = countPending students table.
Proof.
  rewrite students_loop_count. unfold countPending.
  induction students as [|s ss IH]; [reflexivity |].
  destruct (decide (0 < balance_of table s)) as [H | H].
  - rewrite (filter_cons_True (fun s => 0 < balance_of table s)) by exact H.
    rewrite filter_cons_True by (apply is_pending_spec; exact H).
    simpl. by rewrite IH.
  - rewrite (filter_cons_False (fun s => 0 < balance_of table s)) by exact H.
    rewrite filter_cons_False; [exact IH |].
    intros E. apply H. apply is_pending_spec. exact E.
Qed.

Lemma pendingPayments_countPending c students table grades :
  Dashboard.pendingPayments (Dashboard.loadStats c students table grades)
  = countPending students table.
Proof.
  unfold Dashboard.loadStats. simpl.
  rewrite paymentsByStudent_studentPayments.
  apply students_loop_countPending.
Qed.

(** Dropping the records of unknown students leaves every known student's
    own records as they are. *)
Lemma payments_of_matched students table s :
  s ∈ students ->
  payments_of (id s) (matched students table) = payments_of (id s) table.
Proof.
  intros Hs. unfold matched.
  induction table as [|p ps IH]; [reflexivity |].
  destruct (decide (student_id p ∈ map id students)) as [Hin | Hout].
  - rewrite (filter_cons_True (fun p => student_id p ∈ map id students))
      by exact Hin.
    destruct (decide (student_id p = id s)) as [E | NE].
    + rewrite !payments_of_cons_eq by exact E. by rewrite IH.
    + rewrite !payments_of_cons_ne by exact NE. exact IH.
  - rewrite (filter_cons_False (fun p => student_id p ∈ map id students))
      by exact Hout.
    rewrite payments_of_cons_ne; [exact IH |].
    intros E. apply Hout. rewrite E. apply list_elem_of_fmap_2. exact Hs.
Qed.

Lemma countPending_ext students table table' :
  (forall s, s ∈ students ->
     payments_of (id s) table' = payments_of (id s) table) ->
  countPending students table' = countPending students table.
Proof.
  unfold countPending. intros H.
  induction students as [|s ss IH]; [reflexivity |].
  assert (Hs : balance_of table' s = balance_of table s).
  { unfold balance_of, paid_of.
    rewrite H; [reflexivity | apply list_elem_of_here]. }
  assert (IH' : length (filter (fun s => 0 < balance_of table' s) ss)
                = length (filter (fun s => 0 < balance_of table s) ss)).
  { apply IH. intros s' Hs'. apply H. by apply list_elem_of_further. }
  destruct (decide (0 < balance_of table s)) as [Hp | Hp].
  - rewrite (filter_cons_True (fun s => 0 < balance_of table s)) by exact Hp.
    rewrite filter_cons_True by (rewrite Hs; exact Hp).
    simpl. by rewrite IH'.
  - rewrite (filter_cons_False (fun s => 0 < balance_of table s)) by exact Hp.
    rewrite filter_cons_False by (rewrite Hs; exact Hp).
    exact IH'.
Qed.

(** ** The status of one student *)

(** The status shown by the payments page for the student [s], given the
    whole payments table, is the status the student detail page shows for
    the records of [s] in the order of the table. *)
Lemma page_status_detail s table :
  Payments.status (Payments.with_status (Payments.studentPayments table) s)
  = StudentDetail.paymentStatus s (payments_of (id s) table).
Proof.
  rewrite with_status_classify, paymentStatus_classify.
  by rewrite studentPayments_lookup.
Qed.

Lemma page_totalPaid_detail s table :
  Payments.totalPaid (Payments.with_status (Payments.studentPayments table) s)
  = StudentDetail.totalPaid (payments_of (id s) table).
Proof. unfold Payments.with_status. simpl. apply studentPayments_lookup. Qed.

Lemma page_balance_detail s table :
  Payments.balance (Payments.with_status (Payments.studentPayments table) s)
  = StudentDetail.balance s (payments_of (id s) table).
Proof.
  unfold Payments.balance, StudentDetail.balance.
  by rewrite page_totalPaid_detail.
Qed.


(** Every row of the payments page is the row computed for one of the
    students. *)
Lemma calculatePaymentStatus_Forall
    (P : Payments.StudentWithPayments -> Prop) students table :
  (forall s, s ∈ students ->
     P (Payments.with_status (Payments.studentPayments table) s)) ->
  Forall P (Payments.calculatePaymentStatus students table).
Proof.
  unfold Payments.calculatePaymentStatus.
  induction students as [|s ss IH]; intros H; simpl; constructor.
  - apply H, list_elem_of_here.
  - apply IH. intros s' Hs'. apply H. by apply list_elem_of_further.
Qed.

Lemma calculatePaymentStatus_elem students table s :
  s ∈ students ->
  Payments.with_status (Payments.studentPayments table) s
  ∈ Payments.calculatePaymentStatus students table.
Proof.
  intros H. unfold Payments.calculatePaymentStatus.
  by apply list_elem_of_fmap_2.
Qed.








(** ** Totals and balances *)


(** Adding a number that is not negative does not lower a double. *)
Lemma add_ge x y : IEEE.is_double x -> 0 <= y -> x <= IEEE.add x y.
Proof.
  intros Hx Hy. unfold IEEE.add. apply round53_ge_double; [exact Hx |].
  rewrite <- Zle_Qle. lia.
Qed.

Lemma add_le x y : IEEE.is_double x -> y <= 0 -> IEEE.add x y <= x.
Proof.
  intros Hx Hy. unfold IEEE.add. apply round53_le_double; [exact Hx |].
  rewrite <- Zle_Qle. lia.
Qed.





(** C9. For a tuition that is not negative and any payments, each page
    produces exactly one status; that status is Paid exactly when the
    balance is at most 0, and a status PartialPayment or Unpaid comes with a
    positive balance. *)
Theorem C9_paid_iff_no_balance (s : Student) (students : list Student)
    (mine table : list Payment) :
  0 <= total_tuition s ->
  let row := Payments.with_status (Payments.studentPayments table) s in
  (exists! st, StudentDetail.paymentStatus s mine = st)
  /\ (exists! st, Payments.status row = st)
  /\ (StudentDetail.paymentStatus s mine = Paid
      <-> StudentDetail.balance s mine <= 0)
  /\ (Payments.status row = Paid <-> Payments.balance row <= 0)
  /\ (pending_status (StudentDetail.paymentStatus s mine) = true
      <-> 0 < StudentDetail.balance s mine)
  /\ (pending_status (Payments.status row) = true
      <-> 0 < Payments.balance row)
  /\ Forall
       (fun r =>
          (Payments.status r = Paid <-> Payments.balance r <= 0)
          /\ (pending_status (Payments.status r) = true
              <-> 0 < Payments.balance r))
       (Payments.calculatePaymentStatus students table).
Proof.
  intros _ row.
  assert (Hdetail : forall s' mine',
    (StudentDetail.paymentStatus s' mine' = Paid
     <-> StudentDetail.balance s' mine' <= 0)
    /\ (pending_status (StudentDetail.paymentStatus s' mine') = true
        <-> 0 < StudentDetail.balance s' mine')).
  { intros s' mine'.
    assert (Hp : StudentDetail.paymentStatus s' mine' = Paid
                 <-> StudentDetail.balance s' mine' <= 0).
    { rewrite paymentStatus_classify, classify_Paid.
      unfold StudentDetail.balance. by rewrite sub_nonpos_iff. }
    split; [exact Hp |].
    destruct (StudentDetail.paymentStatus s' mine') eqn:E; simpl.
    - split; [discriminate |]. intros H.
      assert (StudentDetail.balance s' mine' <= 0) by (by apply Hp). lia.
    - split; [intros _ | reflexivity].
      apply Z.nle_gt. intros H. apply Hp in H. discriminate.
    - split; [intros _ | reflexivity].
      apply Z.nle_gt. intros H. apply Hp in H. discriminate. }
  assert (Hrows : forall s',
    let r := Payments.with_status (Payments.studentPayments table) s' in
    (Payments.status r = Paid <-> Payments.balance r <= 0)
    /\ (pending_status (Payments.status r) = true <-> 0 < Payments.balance r)).
  { intros s' r. unfold r.
    rewrite page_status_detail, page_balance_detail. apply Hdetail. }
  split; [eexists; split; [reflexivity | by intros ? <-] |].
  split; [eexists; split; [reflexivity | by intros ? <-] |].
  split; [apply Hdetail |].
  split; [apply (Hrows s) |].
  split; [apply Hdetail |].
  split; [apply (Hrows s) |].
  apply calculatePaymentStatus_Forall. intros s' _. apply (Hrows s').
Qed.

Lemma C9_paid_iff_no_balance_witness :
  0 <= total_tuition (mkStudent "s1" 50000)
  /\ pending_status
       (StudentDetail.paymentStatus (mkStudent "s1" 50000)
          [mkPayment "s1" 20000])
     = true
  /\ 0 < StudentDetail.balance (mkStudent "s1" 50000) [mkPayment "s1" 20000].
Proof.
  assert (H : 0 <= total_tuition (mkStudent "s1" 50000)) by (simpl; lia).
  split; [exact H |]. split; [vm_compute; reflexivity |].
  destruct (C9_paid_iff_no_balance (mkStudent "s1" 50000) []
              [mkPayment "s1" 20000] [] H) as (_ & _ & _ & _ & Hb & _).
  apply Hb. vm_compute. reflexivity.
Defined.

(** ** The order of the payments *)




(** A row of the payments page depends on the dictionary only through the
    entry of its student. *)
Lemma with_status_ext m m' s :
  or_zero (m !! id s) = or_zero (m' !! id s) ->
  Payments.with_status m s = Payments.with_status m' s.
Proof. intros H. unfold Payments.with_status. by rewrite H. Qed.





(** ** The three pages agree *)





(** ** The dashboard's aggregation *)

Lemma paymentsByStudent_lookup table sid :
  or_zero (Dashboard.paymentsByStudent (Dashboard.payments_loop table) !! sid)
  = StudentDetail.totalPaid (payments_of sid table).
Proof. rewrite paymentsByStudent_studentPayments. apply studentPayments_lookup. Qed.

Lemma paymentsByStudent_lookup_None table sid :
  payments_of sid table = [] ->
  or_zero (Dashboard.paymentsByStudent (Dashboard.payments_loop table) !! sid) = 0.
Proof.
  intros H. rewrite paymentsByStudent_studentPayments.
  by rewrite studentPayments_lookup_None.
Qed.

Lemma balance_of_status table s :
  0 < balance_of table s
  <-> StudentDetail.paymentStatus s (payments_of (id s) table) <> Paid.
Proof.
  unfold balance_of, paid_of.
  rewrite sub_pos_iff, paymentStatus_classify, classify_Paid. lia.
Qed.







Lemma payments_of_insert_unmatched sid before after p :
  student_id p <> sid ->
  payments_of sid (before ++ p :: after) = payments_of sid (before ++ after).
Proof.
  intros H. rewrite !payments_of_app.
  by rewrite payments_of_cons_ne by exact H.
Qed.

Lemma totalPayments_totalPaid c students table grades :
  Dashboard.totalPayments (Dashboard.loadStats c students table grades)
  = StudentDetail.totalPaid table.
Proof. unfold Dashboard.loadStats. simpl. apply payments_loop_totalPaid. Qed.

(** C10. In the dashboard's aggregation every payment record adds its
    amount to the total of payments, whatever its student identifier: the
    total is the running sum, in doubles, over all the records of the
    table (for amounts of whole currency units, their exact sum), and one
    more record adds its amount to it.  A record whose identifier is that
    of no listed student leaves the pending count and what every listed
    student has paid as they are (so the count is that of the table
    without such records); and a student without any payment record is
    taken to have paid exactly 0. *)
Theorem C10_unmatched_payments (c : option nat) (students : list Student)
    (table : list Payment) (grades : list Grade) :
  Dashboard.totalPayments (Dashboard.loadStats c students table grades)
  = fold_left (fun sum a => IEEE.add sum (Number a)) (amounts table) 0
  /\ (whole_units (amounts table) ->
      Dashboard.totalPayments (Dashboard.loadStats c students table grades)
      = Number (sum (amounts table)))
  /\ (forall p,
        Dashboard.totalPayments
          (Dashboard.loadStats c students (table ++ [p]) grades)
        = IEEE.add
            (Dashboard.totalPayments
               (Dashboard.loadStats c students table grades))
            (Number (amount p)))
  /\ (forall before after p,
        table = before ++ p :: after ->
        (forall s, s ∈ students -> student_id p <> id s) ->
        Dashboard.pendingPayments
          (Dashboard.loadStats c students table grades)
        = Dashboard.pendingPayments
            (Dashboard.loadStats c students (before ++ after) grades)
        /\ forall s, s ∈ students ->
             or_zero
               (Dashboard.paymentsByStudent (Dashboard.payments_loop table)
                  !! id s)
             = or_zero
                 (Dashboard.paymentsByStudent
                    (Dashboard.payments_loop (before ++ after)) !! id s))
  /\ Dashboard.pendingPayments (Dashboard.loadStats c students table grades)
     = Dashboard.pendingPayments
         (Dashboard.loadStats c students (matched students table) grades)
  /\ (forall s, payments_of (id s) table = [] ->
        or_zero
          (Dashboard.paymentsByStudent (Dashboard.payments_loop table) !! id s)
        = 0
        /\ (Dashboard.is_pending
              (Dashboard.paymentsByStudent (Dashboard.payments_loop table)) s
            = true <-> 0 < total_tuition s)).
Proof.
  split.
  { rewrite totalPayments_totalPaid. apply fold_left_amounts. }
  split.
  { intros Hw. rewrite totalPayments_totalPaid.
    by destruct (totalPaid_whole table Hw) as (E & _). }
  split.
  { intros p. rewrite !totalPayments_totalPaid. apply totalPaid_snoc. }
  split; [| split].
  - intros before after p -> Hp. split.
    + rewrite !pendingPayments_countPending. apply countPending_ext.
      intros s Hs. apply payments_of_insert_unmatched.
      by apply Hp.
    + intros s Hs. rewrite !paymentsByStudent_lookup.
      rewrite payments_of_insert_unmatched; [reflexivity | by apply Hp].
  - rewrite !pendingPayments_countPending. symmetry. apply countPending_ext.
    intros s Hs. by apply payments_of_matched.
  - intros s Hs. split; [by apply paymentsByStudent_lookup_None |].
    rewrite paymentsByStudent_studentPayments, is_pending_paid.
    unfold paid_of. rewrite Hs, totalPaid_nil. apply Number_pos_iff.
Qed.

Lemma C10_unmatched_payments_witness :
  let students := [mkStudent "s1" 10000; mkStudent "s2" 50000] in
  let table :=
    [mkPayment "s1" 10000; mkPayment "s9" 7000; mkPayment "s2" 20000] in
  (forall s, s ∈ students -> student_id (mkPayment "s9" 7000) <> id s)
  /\ Dashboard.pendingPayments (Dashboard.loadStats None students table [])
     = Dashboard.pendingPayments
         (Dashboard.loadStats None students
            [mkPayment "s1" 10000; mkPayment "s2" 20000] []).
Proof.
  intros students table.
  assert (Hp : forall s, s ∈ students ->
                 student_id (mkPayment "s9" 7000) <> id s).
  { intros s Hs. apply list_elem_of_In in Hs.
    destruct Hs as [<- | [<- | []]]; discriminate. }
  split; [exact Hp |].
  destruct (C10_unmatched_payments None students table [])
    as (_ & _ & _ & Hins & _).
  destruct (Hins [mkPayment "s1" 10000] [mkPayment "s2" 20000]
              (mkPayment "s9" 7000) eq_refl Hp) as [Hc _].
  exact Hc.
Defined.

(** ** The average grade *)

(** [Math.round] is rounding to the nearest integer, a tie going up. *)
Lemma Math_round_half_up x :
  Math_round x = IEEE.of_Z (round_half_up (IEEE.value x)).
Proof. reflexivity. Qed.

Lemma round_half_up_nearest x :
  (x - (1 # 2) < inject_Z (round_half_up x))%Q
  /\ (inject_Z (round_half_up x) <= x + (1 # 2))%Q.
Proof.
  unfold round_half_up. split.
  - pose proof (Qlt_floor (x + (1 # 2))) as H.
    rewrite inject_Z_plus in H. change (inject_Z 1) with 1%Q in H. lra.
  - apply Qfloor_le.
Qed.



(** C2 as stated fails: for no grade at all the stored average is the
    number 0, and an average that really is 0 (the single grade 0) is shown
    as the text "N/A", the same as no grade. *)
Lemma C2_counterexample :
  Dashboard.averageGrade (Dashboard.loadStats None [] [] []) = 0
  /\ Dashboard.averageGradeCard (Dashboard.loadStats None [] [] [mkGrade 0])
     = Dashboard.TextValue "N/A"
  /\ Dashboard.averageGradeCard (Dashboard.loadStats None [] [] [mkGrade 0])
     = Dashboard.averageGradeCard (Dashboard.loadStats None [] [] []).
Proof. split_all; vm_compute; reflexivity. Qed.

Lemma averageGrade_empty c students payments :
  Dashboard.averageGrade (Dashboard.loadStats c students payments []) = 0.
Proof. vm_compute. reflexivity. Qed.

(** C2, amended. For an empty sequence of grades the dashboard stores the
    average 0, there being no separate value for "no data", and its card
    shows the text "N/A" instead of a number; an average that is not 0 is
    shown as that number. *)
Theorem C2_empty_average (c : option nat) (students : list Student)
    (payments : list Payment) (grades : list Grade) :
  Dashboard.averageGrade (Dashboard.loadStats c students payments []) = 0
  /\ Dashboard.averageGradeCard (Dashboard.loadStats c students payments [])
     = Dashboard.TextValue "N/A"
  /\ (Dashboard.averageGrade (Dashboard.loadStats c students payments grades)
      <> 0 ->
      Dashboard.averageGradeCard (Dashboard.loadStats c students payments grades)
      = Dashboard.NumberValue
          (Dashboard.averageGrade
             (Dashboard.loadStats c students payments grades))).
Proof.
  split; [apply averageGrade_empty |]. split.
  - unfold Dashboard.averageGradeCard. by rewrite averageGrade_empty.
  - intros H. unfold Dashboard.averageGradeCard.
    apply truthy_true in H. by rewrite H.
Qed.

Lemma C2_empty_average_witness :
  let grades := [mkGrade 8000; mkGrade 9000; mkGrade 7000] in
  Dashboard.averageGrade (Dashboard.loadStats None [] [] grades) <> 0
  /\ Dashboard.averageGradeCard (Dashboard.loadStats None [] [] grades)
     = Dashboard.NumberValue
         (Dashboard.averageGrade (Dashboard.loadStats None [] [] grades)).
Proof.
  intros grades.
  assert (H : Dashboard.averageGrade (Dashboard.loadStats None [] [] grades)
              <> 0) by (vm_compute; discriminate).
  split; [exact H |].
  destruct (C2_empty_average None [] [] grades) as (_ & _ & Hn).
  exact (Hn H).
Defined.



(** ** The status filter of the payments page *)

Lemma label_inj st st' : Badge.label st = Badge.label st' -> st = st'.
Proof. destruct st, st'; simpl; intros H; try reflexivity; discriminate. Qed.

Lemma filteredStudents_all rows : PaymentsView.filteredStudents "all" rows = rows.
Proof. reflexivity. Qed.

Lemma filteredStudents_label st rows :
  PaymentsView.filteredStudents (Badge.label st) rows
  = filter (fun r => Payments.status r = st) rows.
Proof.
  unfold PaymentsView.filteredStudents.
  destruct (decide (Badge.label st = "all")) as [E | _];
    [destruct st; discriminate |].
  induction rows as [|r rs IH]; [reflexivity |].
  destruct (decide (Payments.status r = st)) as [H | H].
  - rewrite (filter_cons_True (fun r => Payments.status r = st)) by exact H.
    rewrite filter_cons_True by (by rewrite H). by rewrite IH.
  - rewrite (filter_cons_False (fun r => Payments.status r = st)) by exact H.
    rewrite filter_cons_False; [exact IH |].
    intros E. apply H. by apply label_inj.
Qed.

Lemma filteredStudents_lengths (rows : list Payments.StudentWithPayments) :
  length rows
  = (length (PaymentsView.filteredStudents "Paid" rows)
     + length (PaymentsView.filteredStudents "Partial Payment" rows)
     + length (PaymentsView.filteredStudents "Unpaid" rows))%nat.
Proof.
  change "Paid"%string with (Badge.label Paid).
  change "Partial Payment"%string with (Badge.label PartialPayment).
  change "Unpaid"%string with (Badge.label Unpaid).
  rewrite !filteredStudents_label.
  induction rows as [|r rs IH]; [reflexivity |].
  destruct (Payments.status r) eqn:E.
  - rewrite (filter_cons_True (fun r => Payments.status r = Paid)) by exact E.
    rewrite !filter_cons_False by congruence. simpl. lia.
  - rewrite (filter_cons_True (fun r => Payments.status r = PartialPayment))
      by exact E.
    rewrite !filter_cons_False by congruence. simpl. lia.
  - rewrite (filter_cons_True (fun r => Payments.status r = Unpaid)) by exact E.
    rewrite !filter_cons_False by congruence. simpl. lia.
Qed.

(** The three status filters split the rows of the payments page: a row
    is shown under the filter of its own status and under no other, each
    filter keeps the order of the rows, and the three results together
    have as many rows as the table. *)
Theorem filteredStudents_partition
    (rows : list Payments.StudentWithPayments) :
  (forall st r,
     r ∈ PaymentsView.filteredStudents (Badge.label st) rows
     <-> r ∈ rows /\ Payments.status r = st)
  /\ (forall st, sublist (PaymentsView.filteredStudents (Badge.label st) rows) rows)
  /\ length rows
     = (length (PaymentsView.filteredStudents "Paid" rows)
        + length (PaymentsView.filteredStudents "Partial Payment" rows)
        + length (PaymentsView.filteredStudents "Unpaid" rows))%nat.
Proof.
  split; [| split].
  - intros st r. rewrite filteredStudents_label, list_elem_of_filter. tauto.
  - intros st. rewrite filteredStudents_label. apply sublist_filter.
  - apply filteredStudents_lengths.
Qed.

(** A filter value other than ["all"] and the three status texts shows no
    row at all; this holds in particular for the Spanish texts that the
    type of the row declares for its status. *)
Theorem filteredStudents_unknown (filterStatus : string)
    (rows : list Payments.StudentWithPayments) :
  filterStatus <> "all" ->
  (forall st, filterStatus <> Badge.label st) ->
  PaymentsView.filteredStudents filterStatus rows = [].
Proof.
  intros Hall Hst. unfold PaymentsView.filteredStudents.
  destruct (decide (filterStatus = "all")) as [E | _]; [contradiction |].
  induction rows as [|r rs IH]; [reflexivity |].
  rewrite filter_cons_False; [exact IH |].
  intros E. by apply (Hst (Payments.status r)).
Qed.

Lemma filteredStudents_unknown_witness :
  PaymentsView.filteredStudents "Pagado"
    (Payments.calculatePaymentStatus
       [mkStudent "s1" 10000; mkStudent "s2" 50000]
       [mkPayment "s1" 10000; mkPayment "s2" 20000])
  = [].
Proof.
  apply filteredStudents_unknown.
  - discriminate.
  - intros st. destruct st; discriminate.
Defined.
(** ** The dashboard's count against the payments page *)

Lemma countPending_rows students table :
  countPending students table
  = length (filter (fun r => Payments.status r <> Paid)
              (Payments.calculatePaymentStatus students table)).
Proof.
  unfold countPending, Payments.calculatePaymentStatus.
  induction students as [|s ss IH]; [reflexivity |]. simpl map.
  assert (E : 0 < balance_of table s
              <-> Payments.status
                    (Payments.with_status (Payments.studentPayments table) s)
                  <> Paid).
  { rewrite page_status_detail. apply balance_of_status. }
  destruct (decide (0 < balance_of table s)) as [H | H].
  - rewrite (filter_cons_True (fun s => 0 < balance_of table s)) by exact H.
    rewrite filter_cons_True by (by apply E). simpl. by rewrite IH.
  - rewrite (filter_cons_False (fun s => 0 < balance_of table s)) by exact H.
    rewrite filter_cons_False by (by rewrite <- E). exact IH.
Qed.

Lemma calculatePaymentStatus_length students table :
  length (Payments.calculatePaymentStatus students table) = length students.
Proof. unfold Payments.calculatePaymentStatus. apply length_map. Qed.

(** The number of pending payments on the dashboard is the number of rows
    that the payments page shows under "Partial Payment" plus the number
    it shows under "Unpaid", for the same students and payments; with the
    rows shown under "Paid" they make up the students, so the count never
    exceeds the number of students. *)
Theorem pendingPayments_filtered_rows (c : option nat)
    (students : list Student) (table : list Payment) (grades : list Grade) :
  let rows := Payments.calculatePaymentStatus students table in
  let pending :=
    Dashboard.pendingPayments (Dashboard.loadStats c students table grades) in
  pending
  = (length (PaymentsView.filteredStudents "Partial Payment" rows)
     + length (PaymentsView.filteredStudents "Unpaid" rows))%nat
  /\ (pending + length (PaymentsView.filteredStudents "Paid" rows))%nat
     = length students
  /\ (pending <= length students)%nat.
Proof.
  intros rows pending.
  assert (E : pending
              = (length (PaymentsView.filteredStudents "Partial Payment" rows)
                 + length (PaymentsView.filteredStudents "Unpaid" rows))%nat).
  { unfold pending. rewrite pendingPayments_countPending, countPending_rows.
    fold rows.
    change "Partial Payment"%string with (Badge.label PartialPayment).
    change "Unpaid"%string with (Badge.label Unpaid).
    rewrite !filteredStudents_label.
    induction rows as [|r rs IH]; [reflexivity |].
    destruct (Payments.status r) eqn:Er.
    - rewrite !filter_cons_False by (rewrite Er; congruence). exact IH.
    - rewrite (filter_cons_True (fun r => Payments.status r <> Paid))
        by (rewrite Er; congruence).
      rewrite (filter_cons_True (fun r => Payments.status r = PartialPayment))
        by exact Er.
      rewrite filter_cons_False by (rewrite Er; congruence).
      simpl. by rewrite IH.
    - rewrite (filter_cons_True (fun r => Payments.status r <> Paid))
        by (rewrite Er; congruence).
      rewrite (filter_cons_True (fun r => Payments.status r = Unpaid))
        by exact Er.
      rewrite filter_cons_False by (rewrite Er; congruence).
      simpl. rewrite IH. lia. }
  pose proof (filteredStudents_lengths rows) as Hlen.
  rewrite <- (calculatePaymentStatus_length students table). fold rows.
  split; [exact E |]. split; lia.
Qed.
(** ** The colour of the status badge *)

Lemma getStatusColor_label st :
  Badge.getStatusColor (Badge.label st)
  = match st with
    | Paid => "bg-success text-success-foreground"
    | PartialPayment => "bg-warning text-warning-foreground"
    | Unpaid => "bg-destructive text-destructive-foreground"
    end.
Proof. destruct st; reflexivity. Qed.

(** On the student detail page the badge of the status is green
    ("success") exactly when the balance is at most 0, red ("destructive")
    exactly when a balance is left and the payments sum to nothing
    positive, and yellow ("warning") exactly when a balance is left and the
    payments sum to something positive; a computed status never gets the
    empty class of the [default] branch. *)
Theorem detail_badge_color (s : Student) (mine : list Payment) :
  let color :=
    Badge.getStatusColor (Badge.label (StudentDetail.paymentStatus s mine)) in
  (color = "bg-success text-success-foreground"
   <-> StudentDetail.balance s mine <= 0)
  /\ (color = "bg-destructive text-destructive-foreground"
      <-> 0 < StudentDetail.balance s mine /\ StudentDetail.totalPaid mine <= 0)
  /\ (color = "bg-warning text-warning-foreground"
      <-> 0 < StudentDetail.balance s mine /\ 0 < StudentDetail.totalPaid mine)
  /\ color <> "".
Proof.
  intros color. unfold color. rewrite getStatusColor_label.
  unfold StudentDetail.balance. rewrite sub_nonpos_iff, sub_pos_iff.
  destruct (StudentDetail.paymentStatus s mine) eqn:E;
    rewrite paymentStatus_classify in E.
  - apply classify_Paid in E.
    split; [split; [intros _; exact E | reflexivity] |].
    split; [split; [discriminate | intros [H _]; lia] |].
    split; [split; [discriminate | intros [H _]; lia] | discriminate].
  - apply classify_PartialPayment in E as [E1 E2].
    split; [split; [discriminate | lia] |].
    split; [split; [discriminate | intros [_ H]; lia] |].
    split; [split; [intros _; by split | reflexivity] | discriminate].
  - apply classify_Unpaid in E as [E1 E2].
    split; [split; [discriminate | lia] |].
    split; [split; [intros _; by split | reflexivity] |].
    split; [split; [discriminate | intros [_ H]; lia] | discriminate].
Qed.

(** ** Recording one more payment *)

Lemma payments_of_insert_eq sid before after p :
  student_id p = sid ->
  payments_of sid (before ++ p :: after)
  = payments_of sid before ++ p :: payments_of sid after.
Proof.
  intros H. rewrite payments_of_app. by rewrite payments_of_cons_eq by exact H.
Qed.

Lemma reduce_mono payments acc acc' :
  acc <= acc' ->
  fold_left (fun sum payment => IEEE.add sum (Number (amount payment)))
    payments acc
  <= fold_left (fun sum payment => IEEE.add sum (Number (amount payment)))
       payments acc'.
Proof.
  revert acc acc'. induction payments as [|p ps IH]; intros acc acc' H; simpl.
  - exact H.
  - apply IH. apply add_mono; [exact H | lia].
Qed.

(** A payment that is not negative, wherever it comes in the list, does not
    lower the total. *)
Lemma totalPaid_insert_le before after p :
  0 <= amount p ->
  StudentDetail.totalPaid (before ++ after)
  <= StudentDetail.totalPaid (before ++ p :: after).
Proof.
  intros H. unfold StudentDetail.totalPaid. rewrite !fold_left_app. simpl.
  apply reduce_mono. apply add_ge.
  - apply reduce_is_double, is_double_0.
  - pose proof (Number_neg_iff (amount p)). lia.
Qed.

Lemma paid_of_insert_le before after p s :
  0 <= amount p ->
  paid_of (before ++ after) s <= paid_of (before ++ p :: after) s.
Proof.
  intros H. unfold paid_of.
  destruct (decide (student_id p = id s)) as [E | NE].
  - rewrite payments_of_insert_eq by exact E. rewrite payments_of_app.
    by apply totalPaid_insert_le.
  - rewrite payments_of_insert_unmatched by exact NE. lia.
Qed.

Lemma classify_rank_mono t p p' :
  p <= p' ->
  (status_rank (classify t p) <= status_rank (classify t p'))%nat.
Proof.
  intros H. unfold classify. repeat case_decide; simpl; lia.
Qed.

Lemma countPending_mono students table table' :
  (forall s, 0 < balance_of table' s -> 0 < balance_of table s) ->
  (countPending students table' <= countPending students table)%nat.
Proof.
  intros H. unfold countPending.
  induction students as [|s ss IH]; [reflexivity |].
  destruct (decide (0 < balance_of table' s)) as [Hp' | Hp'].
  - rewrite (filter_cons_True (fun s => 0 < balance_of table' s)) by exact Hp'.
    rewrite filter_cons_True by (by apply H). simpl. lia.
  - rewrite (filter_cons_False (fun s => 0 < balance_of table' s)) by exact Hp'.
    destruct (decide (0 < balance_of table s)) as [Hp | Hp].
    + rewrite filter_cons_True by exact Hp. simpl. lia.
    + rewrite filter_cons_False by exact Hp. exact IH.
Qed.

Lemma page_status_paid table s :
  Payments.status (Payments.with_status (Payments.studentPayments table) s)
  = classify (Number (total_tuition s)) (paid_of table s).
Proof. rewrite page_status_detail. apply paymentStatus_classify. Qed.

(** A new payment record changes the row of its own student only.
    Wherever the store places the new record among the others, every row of
    another student is the same as before, with its total, balance and
    status.  When the record comes last, the total of its student's row and
    the dashboard's total of payments are the former totals plus the
    amount, added as doubles. *)
Theorem record_payment_row (c : option nat) (students : list Student)
    (before after : list Payment) (grades : list Grade) (p : Payment)
    (s : Student) :
  let table := before ++ after in
  let table' := before ++ p :: after in
  (student_id p <> id s ->
   Payments.with_status (Payments.studentPayments table') s
   = Payments.with_status (Payments.studentPayments table) s)
  /\ (student_id p = id s ->
      Payments.totalPaid
        (Payments.with_status
           (Payments.studentPayments (record_payment table p)) s)
      = IEEE.add
          (Payments.totalPaid
             (Payments.with_status (Payments.studentPayments table) s))
          (Number (amount p)))
  /\ Dashboard.totalPayments
       (Dashboard.loadStats c students (record_payment table p) grades)
     = IEEE.add
         (Dashboard.totalPayments (Dashboard.loadStats c students table grades))
         (Number (amount p)).
Proof.
  intros table table'. unfold table, table', record_payment.
  split; [| split].
  - intros NE. apply with_status_ext. rewrite !studentPayments_lookup.
    by rewrite payments_of_insert_unmatched by exact NE.
  - intros E. rewrite !page_totalPaid_detail.
    rewrite (payments_of_app (id s) (before ++ after) [p]).
    rewrite (payments_of_cons_eq (id s) p []) by exact E.
    apply totalPaid_snoc.
  - rewrite !totalPayments_totalPaid. apply totalPaid_snoc.
Qed.

Lemma record_payment_row_witness :
  let before := [mkPayment "s1" 6000] in
  let after := [mkPayment "s2" 20000] in
  let p := mkPayment "s1" 5000 in
  student_id p <> id (mkStudent "s2" 50000)
  /\ Payments.with_status
       (Payments.studentPayments (before ++ p :: after)) (mkStudent "s2" 50000)
     = Payments.with_status
         (Payments.studentPayments (before ++ after)) (mkStudent "s2" 50000).
Proof.
  intros before after p.
  assert (NE : student_id p <> id (mkStudent "s2" 50000)) by discriminate.
  split; [exact NE |].
  destruct (record_payment_row None [] before after [] p
              (mkStudent "s2" 50000)) as (H & _ & _).
  exact (H NE).
Defined.

(** A payment whose amount is not negative, wherever the store places it
    among the others, never lowers a total and never moves a status
    backwards (Unpaid, then PartialPayment, then Paid), neither on the
    payments page nor on the student detail page, and never raises the
    dashboard's count of pending payments. *)
Theorem record_payment_monotone (c : option nat) (students : list Student)
    (before after : list Payment) (grades : list Grade)
    (p : Payment) (s : Student) :
  0 <= amount p ->
  let table := before ++ after in
  let table' := before ++ p :: after in
  let row := Payments.with_status (Payments.studentPayments table) s in
  let row' := Payments.with_status (Payments.studentPayments table') s in
  Payments.totalPaid row <= Payments.totalPaid row'
  /\ (status_rank (Payments.status row)
      <= status_rank (Payments.status row'))%nat
  /\ StudentDetail.totalPaid table <= StudentDetail.totalPaid table'
  /\ (status_rank (StudentDetail.paymentStatus s table)
      <= status_rank (StudentDetail.paymentStatus s table'))%nat
  /\ Dashboard.totalPayments (Dashboard.loadStats c students table grades)
     <= Dashboard.totalPayments (Dashboard.loadStats c students table' grades)
  /\ (Dashboard.pendingPayments
        (Dashboard.loadStats c students table' grades)
      <= Dashboard.pendingPayments
           (Dashboard.loadStats c students table grades))%nat.
Proof.
  intros H table table' row row'. unfold row, row', table, table'.
  pose proof (totalPaid_insert_le before after p H) as Ht.
  split; [| split; [| split; [| split; [| split]]]].
  - rewrite !page_totalPaid_detail. by apply paid_of_insert_le.
  - rewrite !page_status_paid. apply classify_rank_mono.
    by apply paid_of_insert_le.
  - exact Ht.
  - rewrite !paymentStatus_classify. by apply classify_rank_mono.
  - by rewrite !totalPayments_totalPaid.
  - rewrite !pendingPayments_countPending. apply countPending_mono.
    intros s'. unfold balance_of. rewrite !sub_pos_iff.
    pose proof (paid_of_insert_le before after p s' H). lia.
Qed.

Lemma record_payment_monotone_witness :
  0 <= amount (mkPayment "s1" 5000)
  /\ (Dashboard.pendingPayments
        (Dashboard.loadStats None [mkStudent "s1" 10000]
           [mkPayment "s1" 5000; mkPayment "s1" 6000] [])
      <= Dashboard.pendingPayments
           (Dashboard.loadStats None [mkStudent "s1" 10000]
              [mkPayment "s1" 6000] []))%nat.
Proof.
  assert (H : 0 <= amount (mkPayment "s1" 5000)) by (simpl; lia).
  split; [exact H |].
  destruct (record_payment_monotone None [mkStudent "s1" 10000]
              [] [mkPayment "s1" 6000] [] (mkPayment "s1" 5000)
              (mkStudent "s1" 10000) H)
    as (_ & _ & _ & _ & _ & Hc).
  exact Hc.
Defined.

(** ** When the card of the average shows "N/A" *)

Lemma round_half_up_zero x :
  round_half_up x = 0 <-> (- (1 # 2) <= x)%Q /\ (x < 1 # 2)%Q.
Proof.
  destruct (round_half_up_nearest x) as [Hlo Hhi]. split.
  - intros E. rewrite E in Hlo, Hhi. change (inject_Z 0) with 0%Q in *.
    split; lra.
  - intros [H1 H2].
    assert (Hk : -1 < round_half_up x < 1); [| lia].
    rewrite !Zlt_Qlt. change (inject_Z (-1)) with (-1)%Q.
    change (inject_Z 1) with 1%Q. split; lra.
Qed.

Lemma averageGrade_round c students payments grades :
  Dashboard.averageGrade (Dashboard.loadStats c students payments grades)
  = IEEE.div
      (IEEE.of_Z
         (round_half_up
            (IEEE.value (IEEE.mul (Dashboard.avgGrade grades) (IEEE.of_Z 10)))))
      (IEEE.of_Z 10).
Proof. reflexivity. Qed.

(** The card of the average shows the text "N/A" exactly when ten times
    the mean, as the page computes it in doubles, is at least -0.5 and below
    0.5, which [Math.round] sends to 0, and then the stored average is 0;
    for every other value it shows the stored average.  The grades 0.01 and
    0.09, whose mean is 0.05, are shown as "N/A": the page computes
    0.49999999999999994 for ten times their mean. *)
Theorem averageGradeCard_not_available (c : option nat)
    (students : list Student) (payments : list Payment)
    (grades : list Grade) :
  let stats := Dashboard.loadStats c students payments grades in
  let m10 :=
    IEEE.value (IEEE.mul (Dashboard.avgGrade grades) (IEEE.of_Z 10)) in
  (Dashboard.averageGradeCard stats = Dashboard.TextValue "N/A"
   <-> (- (1 # 2) <= m10)%Q /\ (m10 < 1 # 2)%Q)
  /\ (Dashboard.averageGradeCard stats = Dashboard.TextValue "N/A" ->
      Dashboard.averageGrade stats = 0)
  /\ (~ ((- (1 # 2) <= m10)%Q /\ (m10 < 1 # 2)%Q) ->
      Dashboard.averageGradeCard stats
      = Dashboard.NumberValue (Dashboard.averageGrade stats))
  /\ Dashboard.averageGradeCard
       (Dashboard.loadStats c students payments [mkGrade 1; mkGrade 9])
     = Dashboard.TextValue "N/A".
Proof.
  intros stats m10.
  assert (Hzero : Dashboard.averageGrade stats = 0
                  <-> (- (1 # 2) <= m10)%Q /\ (m10 < 1 # 2)%Q).
  { unfold stats. rewrite averageGrade_round, div_ten_zero.
    apply round_half_up_zero. }
  assert (Hcard : Dashboard.averageGradeCard stats = Dashboard.TextValue "N/A"
                  <-> Dashboard.averageGrade stats = 0).
  { unfold Dashboard.averageGradeCard.
    destruct (truthy (Dashboard.averageGrade stats)) eqn:E.
    - apply truthy_true in E. split; [discriminate | contradiction].
    - apply truthy_false in E. by split. }
  split; [by rewrite Hcard |]. split; [by apply Hcard |]. split.
  - intros Hout. unfold Dashboard.averageGradeCard.
    destruct (truthy (Dashboard.averageGrade stats)) eqn:E; [reflexivity |].
    apply truthy_false in E. exfalso. by apply Hout, Hzero.
  - vm_compute. reflexivity.
Qed.

Lemma averageGradeCard_not_available_witness :
  let grades := [mkGrade 20; mkGrade 50] in
  let m10 :=
    IEEE.value (IEEE.mul (Dashboard.avgGrade grades) (IEEE.of_Z 10)) in
  ~ ((- (1 # 2) <= m10)%Q /\ (m10 < 1 # 2)%Q)
  /\ Dashboard.averageGradeCard (Dashboard.loadStats None [] [] grades)
     = Dashboard.NumberValue
         (Dashboard.averageGrade (Dashboard.loadStats None [] [] grades)).
Proof.
  intros grades m10.
  assert (Hout : ~ ((- (1 # 2) <= m10)%Q /\ (m10 < 1 # 2)%Q)).
  { intros [_ H]. vm_compute in H. discriminate H. }
  split; [exact Hout |].
  destruct (averageGradeCard_not_available None [] [] grades)
    as (_ & _ & H & _).
  exact (H Hout).
Defined.

(** ** The dashboard when a query fails *)

Lemma balance_of_no_payments s : balance_of [] s = Number (total_tuition s).
Proof.
  unfold balance_of, paid_of. change (payments_of (id s) []) with (@nil Payment).
  rewrite totalPaid_nil. apply sub_0_r, Number_is_double.
Qed.

Lemma countPending_no_payments students :
  countPending students []
  = length (filter (fun s => 0 < total_tuition s) students).
Proof.
  unfold countPending. f_equal. apply list_filter_iff. intros s.
  rewrite balance_of_no_payments. apply Number_pos_iff.
Qed.

(** The dashboard never looks at the [error] of an answer, so a query
    that failed reads as an empty table: without the payments the total of
    payments is 0 and every student with a positive tuition is counted as
    pending; without the students nothing is pending; without the grades
    the card of the average shows "N/A". *)
Theorem loadStats_failed_query (c : option nat)
    (studentsRes : Supabase.Response (list Student))
    (paymentsRes : Supabase.Response (list Payment))
    (gradesRes : Supabase.Response (list Grade)) :
  let stats := DashboardQueries.loadStats c studentsRes paymentsRes gradesRes in
  (Supabase.data paymentsRes = None ->
   Dashboard.totalPayments stats = 0
   /\ Dashboard.pendingPayments stats
      = length (filter (fun s => 0 < total_tuition s)
                  (default [] (Supabase.data studentsRes))))
  /\ (Supabase.data studentsRes = None -> Dashboard.pendingPayments stats = 0%nat)
  /\ (Supabase.data gradesRes = None ->
      Dashboard.averageGradeCard stats = Dashboard.TextValue "N/A").
Proof.
  intros stats. unfold stats, DashboardQueries.loadStats.
  split; [| split].
  - intros ->. split; [reflexivity |].
    rewrite pendingPayments_countPending. apply countPending_no_payments.
  - intros ->. reflexivity.
  - intros ->. unfold Dashboard.averageGradeCard. simpl default.
    by rewrite averageGrade_empty.
Qed.

Lemma loadStats_failed_query_witness :
  let studentsRes :=
    Supabase.mkResponse (Some [mkStudent "s1" 10000; mkStudent "s2" 0]) None in
  let paymentsRes :=
    Supabase.mkResponse (A := list Payment) None (Some "timeout"%string) in
  let gradesRes := Supabase.mkResponse (Some [mkGrade 8000]) None in
  Supabase.data paymentsRes = None
  /\ Dashboard.pendingPayments
       (DashboardQueries.loadStats (Some 2%nat) studentsRes paymentsRes gradesRes)
     = 1%nat.
Proof.
  intros studentsRes paymentsRes gradesRes.
  split; [reflexivity |].
  destruct (loadStats_failed_query (Some 2%nat) studentsRes paymentsRes
              gradesRes) as (H & _ & _).
  destruct (H eq_refl) as [_ Hp]. exact Hp.
Defined.

(** ** The class-name helper of the dashboard *)

Lemma append_assoc (a b c : string) : (a +:+ b) +:+ c = a +:+ b +:+ c.
Proof.
  induction a as [|ch a IH]; [reflexivity |].
  change (String ch ((a +:+ b) +:+ c) = String ch (a +:+ b +:+ c)).
  by rewrite IH.
Qed.






(** ** Loading the pages *)

(** On the student detail page a failed student query raises an error
    notification and leaves the student and the payments of the state as
    they were, whatever the payments query answered: on the first load the
    page then shows "Student not found", and after an earlier load it
    still shows the summary of the student loaded before, with that
    student's payments.  A failed
    payments query, the student query having succeeded, raises no
    notification and is rendered as a student without payments: a total of
    0, a balance equal to the tuition, "No payments recorded", and the
    status Unpaid for a positive tuition. *)
Theorem loadStudentData_failures
    (studentRes : Supabase.Response Student)
    (paymentsRes : Supabase.Response (list Payment))
    (st : StudentDetailPage.State) :
  let result := StudentDetailPage.loadStudentData studentRes paymentsRes st in
  (forall message,
     Supabase.error studentRes = Some message ->
     snd result = Some ("Error loading student data: " +:+ message)
     /\ StudentDetailPage.student (fst result) = StudentDetailPage.student st
     /\ StudentDetailPage.payments (fst result) = StudentDetailPage.payments st
     /\ StudentDetailPage.loading (fst result) = false
     /\ (StudentDetailPage.student st = None ->
         StudentDetailPage.render (fst result)
         = StudentDetailPage.StudentNotFound)
     /\ (forall previous,
           StudentDetailPage.student st = Some previous ->
           StudentDetailPage.render (fst result)
           = StudentDetailPage.Summary
               (StudentDetail.totalPaid (StudentDetailPage.payments st))
               (StudentDetail.balance previous (StudentDetailPage.payments st))
               (StudentDetail.paymentStatus previous
                  (StudentDetailPage.payments st))
               (Badge.getStatusColor
                  (Badge.label
                     (StudentDetail.paymentStatus previous
                        (StudentDetailPage.payments st))))
               (Nat.eqb (length (StudentDetailPage.payments st)) 0)))
  /\ (Supabase.error studentRes <> None ->
      StudentDetailPage.render
        (fst (StudentDetailPage.loadStudentData studentRes paymentsRes
                StudentDetailPage.initial))
      = StudentDetailPage.StudentNotFound)
  /\ (forall s,
        Supabase.error studentRes = None ->
        Supabase.data studentRes = Some s ->
        Supabase.data paymentsRes = None ->
        snd result = None
        /\ exists paymentStatus,
             StudentDetailPage.render (fst result)
             = StudentDetailPage.Summary 0 (Number (total_tuition s))
                 paymentStatus
                 (Badge.getStatusColor (Badge.label paymentStatus)) true
             /\ (0 < total_tuition s -> paymentStatus = Unpaid)
             /\ (total_tuition s <= 0 -> paymentStatus = Paid)).
Proof.
  intros result. unfold result, StudentDetailPage.loadStudentData.
  split; [| split].
  - intros message ->. simpl.
    split; [reflexivity |]. split; [reflexivity |]. split; [reflexivity |].
    split; [reflexivity |]. unfold StudentDetailPage.render. simpl. split.
    + intros ->. reflexivity.
    + intros previous ->. reflexivity.
  - intros H. destruct (Supabase.error studentRes); [reflexivity | done].
  - intros s -> Hs Hp. simpl. rewrite Hs, Hp. split; [reflexivity |].
    exists (StudentDetail.paymentStatus s []).
    unfold StudentDetailPage.render. simpl.
    split.
    { f_equal. unfold StudentDetail.balance. rewrite totalPaid_nil.
      apply sub_0_r, Number_is_double. }
    rewrite paymentStatus_classify, totalPaid_nil. split; intros H.
    + apply classify_Unpaid. apply Number_pos_iff in H. lia.
    + apply classify_Paid.
      pose proof (Number_pos_iff (total_tuition s)). lia.
Qed.

Lemma loadStudentData_failures_witness :
  let studentRes :=
    Supabase.mkResponse (A := Student) None (Some "not found"%string) in
  let paymentsRes := Supabase.mkResponse (Some [mkPayment "s2" 7000]) None in
  let previous := mkStudent "s1" 30000 in
  let st :=
    StudentDetailPage.mkState (Some previous) [mkPayment "s1" 10000] false in
  Supabase.error studentRes = Some "not found"%string
  /\ StudentDetailPage.student st = Some previous
  /\ StudentDetailPage.render
       (fst (StudentDetailPage.loadStudentData studentRes paymentsRes st))
     = StudentDetailPage.Summary
         (StudentDetail.totalPaid [mkPayment "s1" 10000])
         (StudentDetail.balance previous [mkPayment "s1" 10000])
         (StudentDetail.paymentStatus previous [mkPayment "s1" 10000])
         (Badge.getStatusColor
            (Badge.label
               (StudentDetail.paymentStatus previous [mkPayment "s1" 10000])))
         false.
Proof.
  intros studentRes paymentsRes previous st.
  assert (He : Supabase.error studentRes = Some "not found"%string)
    by reflexivity.
  assert (Hs : StudentDetailPage.student st = Some previous) by reflexivity.
  split; [exact He |]. split; [exact Hs |].
  destruct (loadStudentData_failures studentRes paymentsRes st) as (H & _ & _).
  destruct (H _ He) as (_ & _ & _ & _ & _ & Hprev).
  exact (Hprev previous Hs).
Defined.

(** On the payments page a load is all or nothing: when either query
    fails the table keeps the rows it had and an error is notified, the
    error of the students query first; when both succeed the rows are the
    ones computed from the two answers. *)
Theorem loadData_all_or_nothing
    (studentsRes : Supabase.Response (list Student))
    (paymentsRes : Supabase.Response (list Payment))
    (st : PaymentsPage.State) :
  let result := PaymentsPage.loadData studentsRes paymentsRes st in
  (Supabase.error studentsRes <> None \/ Supabase.error paymentsRes <> None ->
   PaymentsPage.studentsWithPayments (fst result)
   = PaymentsPage.studentsWithPayments st
   /\ snd result <> None)
  /\ (forall message,
        Supabase.error studentsRes = Some message ->
        snd result = Some ("Error loading data: " +:+ message))
  /\ (Supabase.error studentsRes = None ->
      Supabase.error paymentsRes = None ->
      PaymentsPage.studentsWithPayments (fst result)
      = Payments.calculatePaymentStatus
          (default [] (Supabase.data studentsRes))
          (default [] (Supabase.data paymentsRes))
      /\ snd result = None).
Proof.
  intros result. unfold result, PaymentsPage.loadData.
  split; [| split].
  - intros H.
    destruct (Supabase.error studentsRes) as [m |]; [by split |].
    destruct (Supabase.error paymentsRes) as [m |]; [by split |].
    destruct H as [H | H]; contradiction.
  - intros message ->. reflexivity.
  - intros -> ->. by split.
Qed.

Lemma loadData_all_or_nothing_witness :
  let studentsRes := Supabase.mkResponse (Some [mkStudent "s1" 30000]) None in
  let paymentsRes :=
    Supabase.mkResponse (A := list Payment) None (Some "timeout"%string) in
  let st :=
    PaymentsPage.mkState [mkStudent "s2" 50000] [mkPayment "s2" 20000] false in
  (Supabase.error studentsRes <> None \/ Supabase.error paymentsRes <> None)
  /\ PaymentsPage.studentsWithPayments
       (fst (PaymentsPage.loadData studentsRes paymentsRes st))
     = PaymentsPage.studentsWithPayments st.
Proof.
  intros studentsRes paymentsRes st.
  assert (H : Supabase.error studentsRes <> None
              \/ Supabase.error paymentsRes <> None) by (right; discriminate).
  split; [exact H |].
  destruct (loadData_all_or_nothing studentsRes paymentsRes st) as (Ha & _ & _).
  destruct (Ha H) as [Hr _]. exact Hr.
Defined.

(** ** Notes and observations, from the form to the table *)

Lemma text_or_null_not_empty text :
  PaymentsPage.text_or_null text <> Some "".
Proof.
  unfold PaymentsPage.text_or_null.
  destruct (String.eqb_spec text "") as [-> | NE]; [discriminate | congruence].
Qed.

(** A note typed into a form is stored as [null] when it is empty and
    shown as "-" then; a note that is not empty is stored and shown
    unchanged.  The cell of a table is never empty. *)
Theorem notes_round_trip (notes : string) (stored : option string) :
  StudentDetailPage.text_or_dash (PaymentsPage.text_or_null notes)
  = (if decide (notes = "") then "-" else notes)
  /\ PaymentsPage.text_or_null notes <> Some ""
  /\ StudentDetailPage.text_or_dash stored <> "".
Proof.
  unfold StudentDetailPage.text_or_dash, PaymentsPage.text_or_null.
  split; [| split].
  - destruct (String.eqb_spec notes "") as [-> | NE]; [reflexivity |].
    destruct (decide (notes = "")); [contradiction |].
    destruct (String.eqb_spec notes ""); [contradiction | reflexivity].
  - apply text_or_null_not_empty.
  - destruct stored as [s |]; [| discriminate].
    destruct (String.eqb_spec s "") as [-> | NE]; [discriminate | exact NE].
Qed.

(** ** Registering a student *)

Lemma string_min_nil n message value :
  Students.string_min n message value = []
  <-> (n <= Students.utf16_length value)%nat.
Proof.
  unfold Students.string_min.
  destruct (Nat.ltb_spec (Students.utf16_length value) n);
    split; intros; try done; lia.
Qed.

Lemma number_min_zero_nil message value :
  Students.number_min 0 message value = [] <-> 0 <= value.
Proof.
  unfold Students.number_min. pose proof (Number_neg_iff value).
  js_cases; split; intros; try done; lia.
Qed.

Lemma studentSchema_valid f :
  Students.studentSchema f = []
  <-> (2 <= Students.utf16_length (Students.firstName f))%nat
      /\ (2 <= Students.utf16_length (Students.lastName f))%nat
      /\ (5 <= Students.utf16_length (Students.idNumber f))%nat
      /\ (1 <= Students.utf16_length (Students.dateOfBirth f))%nat
      /\ (1 <= Students.utf16_length (Students.gradeLevel f))%nat
      /\ 0 <= Students.totalTuition f
      /\ (2 <= Students.utf16_length (Students.parentName f))%nat
      /\ (5 <= Students.utf16_length (Students.parentIdNumber f))%nat
      /\ (10 <= Students.utf16_length (Students.parentPhone f))%nat.
Proof.
  unfold Students.studentSchema.
  rewrite !app_nil, !string_min_nil, number_min_zero_nil. reflexivity.
Qed.

Lemma handleSubmit_sent_row formData user studentAnswer parentError row :
  Students.studentInsert
    (Students.handleSubmit formData user studentAnswer parentError)
  = Some row ->
  Students.studentSchema formData = []
  /\ exists user_id,
       user = Some user_id
       /\ row = {| Students.first_name := Students.firstName formData;
                   Students.last_name := Students.lastName formData;
                   Students.id_number := Students.idNumber formData;
                   Students.date_of_birth := Students.dateOfBirth formData;
                   Students.grade_level := Students.gradeLevel formData;
                   Students.total_tuition := Students.totalTuition formData;
                   Students.created_by := user_id |}.
Proof.
  unfold Students.handleSubmit.
  destruct (Students.studentSchema formData) as [|m ms]; [| discriminate].
  destruct user as [uid |]; [| discriminate].
  intros H. split; [reflexivity |]. exists uid. split; [reflexivity |].
  destruct studentAnswer as [new_id | message];
    [destruct parentError |]; simpl in H; congruence.
Qed.

(** A student row reaches the store only from a form that passes every
    rule of the schema and with a signed-in user, who is recorded as its
    creator: the names have at least 2 UTF-16 code units, which is what the
    schema counts, the identity number at least 5, and the tuition is never
    negative.  A name of one character outside the ASCII range, such as
    the single letter N with tilde, does not pass. *)
Theorem handleSubmit_student_guard (formData : Students.FormData)
    (user : option string) (studentAnswer : string + string)
    (parentError : option string) (row : Students.StudentRow) :
  Students.studentInsert
    (Students.handleSubmit formData user studentAnswer parentError)
  = Some row ->
  Students.studentSchema formData = []
  /\ user = Some (Students.created_by row)
  /\ (2 <= Students.utf16_length (Students.first_name row))%nat
  /\ (2 <= Students.utf16_length (Students.last_name row))%nat
  /\ (5 <= Students.utf16_length (Students.id_number row))%nat
  /\ 0 <= Students.total_tuition row
  /\ Students.first_name row
     <> String (Ascii.ascii_of_nat 195) (String (Ascii.ascii_of_nat 145) "").
Proof.
  intros H.
  apply handleSubmit_sent_row in H as (Hv & uid & -> & ->).
  split; [exact Hv |].
  apply studentSchema_valid in Hv as (H1 & H2 & H3 & _ & _ & H6 & _).
  simpl. split_all; try assumption; try reflexivity.
  intros E. rewrite E in H1. vm_compute in H1. lia.
Qed.

Lemma handleSubmit_student_guard_witness :
  let formData :=
    Students.mkFormData "Ana" "Ruiz" "A12345" "2015-03-01" "3A" 30000
      "Luis Ruiz" "B67890" "5551234567" "" in
  let row :=
    Students.mkStudentRow "Ana" "Ruiz" "A12345" "2015-03-01" "3A" 30000
      "admin-1" in
  Students.studentInsert
    (Students.handleSubmit formData (Some "admin-1"%string)
       (inr "duplicate key"%string) None) = Some row
  /\ 0 <= Students.total_tuition row.
Proof.
  intros formData row.
  assert (H : Students.studentInsert
                (Students.handleSubmit formData (Some "admin-1"%string)
                   (inr "duplicate key"%string) None) = Some row)
    by (vm_compute; reflexivity).
  split; [exact H |].
  destruct (handleSubmit_student_guard formData _ _ _ row H)
    as (_ & _ & _ & _ & _ & Ht & _).
  exact Ht.
Defined.

(** The registration is not atomic.  The parent row is sent only after
    the store accepted the student row, it carries the identifier the
    store gave to the student, and its address is never the empty string;
    when the store then refuses the parent row, the student row has
    already been sent, an error is notified and the list is not loaded
    again.  Success is notified exactly when the form is valid, a user is
    signed in and the store accepted both rows. *)
Theorem handleSubmit_parent (formData : Students.FormData)
    (user : option string) (studentAnswer : string + string)
    (parentError : option string) :
  let outcome :=
    Students.handleSubmit formData user studentAnswer parentError in
  (forall parent,
     Students.parentInsert outcome = Some parent ->
     studentAnswer = inl (Students.student_id parent)
     /\ Students.studentInsert outcome <> None
     /\ Students.address parent <> Some "")
  /\ (forall parent message,
        Students.parentInsert outcome = Some parent ->
        parentError = Some message ->
        Students.studentInsert outcome <> None
        /\ Students.toast outcome
           = Students.ToastError (Students.message_or_default message)
        /\ Students.reloaded outcome = false)
  /\ ((exists message, Students.toast outcome = Students.ToastSuccess message)
      <-> Students.studentSchema formData = []
          /\ user <> None
          /\ (exists new_id, studentAnswer = inl new_id)
          /\ parentError = None).
Proof.
  intros outcome. unfold outcome, Students.handleSubmit.
  destruct (Students.studentSchema formData) as [|m ms].
  2:{ split; [intros ? [=] |]. split; [intros ? ? [=] |].
      split; [intros [? [=]] | intros [[=] _]]. }
  destruct user as [uid |].
  2:{ split; [intros ? [=] |]. split; [intros ? ? [=] |].
      split; [intros [? [=]] | intros (_ & H & _); contradiction]. }
  destruct studentAnswer as [new_id | message].
  2:{ split; [intros ? [=] |]. split; [intros ? ? [=] |].
      split; [intros [? [=]] | intros (_ & _ & [? [=]] & _)]. }
  destruct parentError as [message |]; simpl.
  - split.
    { intros parent [= <-]. simpl. repeat split; [discriminate |].
      apply text_or_null_not_empty. }
    split.
    { intros parent message' _ [= <-]. repeat split. discriminate. }
    split; [intros [? [=]] | intros (_ & _ & _ & [=])].
  - split.
    { intros parent [= <-]. simpl. repeat split; [discriminate |].
      apply text_or_null_not_empty. }
    split; [intros ? ? _ [=] |].
    split; [| by eexists].
    intros _. repeat split; [discriminate | by eexists].
Qed.

Lemma handleSubmit_parent_witness :
  let formData :=
    Students.mkFormData "Ana" "Ruiz" "A12345" "2015-03-01" "3A" 30000
      "Luis Ruiz" "B67890" "5551234567" "" in
  let outcome :=
    Students.handleSubmit formData (Some "admin-1"%string)
      (inl "uuid-1"%string) (Some "network"%string) in
  let parent :=
    Students.mkParentRow "uuid-1" "Luis Ruiz" "B67890" "5551234567" None in
  Students.parentInsert outcome = Some parent
  /\ Students.studentInsert outcome <> None
  /\ Students.toast outcome = Students.ToastError "network".
Proof.
  intros formData outcome parent.
  assert (H : Students.parentInsert outcome = Some parent) by reflexivity.
  split; [exact H |].
  destruct (handleSubmit_parent formData (Some "admin-1"%string)
              (inl "uuid-1"%string) (Some "network"%string))
    as (_ & Hfail & _).
  destruct (Hfail parent "network"%string H eq_refl) as (Hs & Ht & _).
  split; [exact Hs | exact Ht].
Defined.

(** A form that breaks a rule of the schema, or a submission without a
    signed-in user, sends nothing to the store and loads nothing again; the
    error notified for an invalid form is one of the messages of the schema,
    and it is the message about the first name whenever the first name has
    fewer than 2 UTF-16 code units, whatever else is wrong. *)
Theorem handleSubmit_rejected (formData : Students.FormData)
    (user : option string) (studentAnswer : string + string)
    (parentError : option string) :
  let outcome :=
    Students.handleSubmit formData user studentAnswer parentError in
  (Students.studentSchema formData <> [] \/ user = None ->
   Students.studentInsert outcome = None
   /\ Students.parentInsert outcome = None
   /\ Students.reloaded outcome = false)
  /\ (Students.studentSchema formData <> [] ->
      exists message,
        Students.toast outcome = Students.ToastError message
        /\ message ∈ Students.studentSchema formData)
  /\ ((Students.utf16_length (Students.firstName formData) < 2)%nat ->
      Students.toast outcome
      = Students.ToastError "First name must be at least 2 characters")
  /\ (Students.studentSchema formData = [] -> user = None ->
      Students.toast outcome = Students.ToastError "Not authenticated").
Proof.
  intros outcome. unfold outcome, Students.handleSubmit.
  split; [| split; [| split]].
  - intros [H | ->].
    + destruct (Students.studentSchema formData); [done | by repeat split].
    + destruct (Students.studentSchema formData); by repeat split.
  - intros H. destruct (Students.studentSchema formData) as [|m ms]; [done |].
    exists m. split; [reflexivity | apply list_elem_of_here].
  - intros H. unfold Students.studentSchema.
    unfold Students.string_min at 1.
    destruct (Nat.ltb_spec
                (Students.utf16_length (Students.firstName formData)) 2);
      [reflexivity | lia].
  - intros -> ->. reflexivity.
Qed.

Lemma handleSubmit_rejected_witness :
  let formData :=
    Students.mkFormData
      (String (Ascii.ascii_of_nat 195) (String (Ascii.ascii_of_nat 145) ""))
      "Ruiz" "A12345" "2015-03-01" "3A" 30000
      "Luis Ruiz" "B67890" "5551234567" "" in
  (Students.utf16_length (Students.firstName formData) < 2)%nat
  /\ Students.studentSchema formData <> []
  /\ Students.studentInsert
       (Students.handleSubmit formData (Some "admin-1"%string)
          (inl "uuid-1"%string) None) = None
  /\ Students.toast
       (Students.handleSubmit formData (Some "admin-1"%string)
          (inl "uuid-1"%string) None)
     = Students.ToastError "First name must be at least 2 characters".
Proof.
  intros formData.
  assert (Hlen : (Students.utf16_length (Students.firstName formData) < 2)%nat)
    by (vm_compute; lia).
  assert (Hbad : Students.studentSchema formData <> [])
    by (vm_compute; discriminate).
  split; [exact Hlen |]. split; [exact Hbad |].
  destruct (handleSubmit_rejected formData (Some "admin-1"%string)
              (inl "uuid-1"%string) None) as (Hnone & _ & Hfirst & _).
  destruct (Hnone (or_introl Hbad)) as (Hs & _ & _).
  split; [exact Hs | exact (Hfirst Hlen)].
Defined.

(** ** The search box of the students page *)

Lemma prefix_spec sub s :
  String.prefix sub s = true <-> exists b, s = sub +:+ b.
Proof.
  revert s. induction sub as [|ch sub IH]; intros s.
  - destruct s; (split; [intros _; eexists; reflexivity | reflexivity]).
  - destruct s as [|ch' s]; simpl.
    + split; [discriminate | intros [b Hb]; discriminate].
    + destruct (Ascii.ascii_dec ch ch') as [-> | NE].
      * rewrite IH. split; intros [b Hb]; exists b.
        -- change (String ch' s = String ch' (sub +:+ b)). by rewrite Hb.
        -- change (String ch' s = String ch' (sub +:+ b)) in Hb. congruence.
      * split; [discriminate |]. intros [b Hb].
        change (String ch' s = String ch (sub +:+ b)) in Hb. congruence.
Qed.

Lemma includes_spec s sub :
  Students.includes s sub = true <-> exists a b, s = a +:+ sub +:+ b.
Proof.
  induction s as [|ch s IH].
  - change (Students.includes "" sub) with (String.prefix sub "" || false).
    rewrite orb_false_r, prefix_spec. split.
    + intros [b Hb]. exists "", b. exact Hb.
    + intros (a & b & H). destruct a as [|? a]; [by exists b | discriminate].
  - change (Students.includes (String ch s) sub)
      with (String.prefix sub (String ch s) || Students.includes s sub).
    rewrite orb_true_iff, prefix_spec, IH. split.
    + intros [[b Hb] | (a & b & H)].
      * exists "", b. exact Hb.
      * exists (String ch a), b.
        change (String ch s = String ch (a +:+ sub +:+ b)). by rewrite H.
    + intros (a & b & H). destruct a as [|ch' a].
      * left. by exists b.
      * right. exists a, b.
        change (String ch s = String ch' (a +:+ sub +:+ b)) in H. congruence.
Qed.

Lemma includes_trans s t u :
  Students.includes s t = true -> Students.includes t u = true ->
  Students.includes s u = true.
Proof.
  rewrite !includes_spec. intros (a & b & ->) (c & d & ->).
  exists (a +:+ c), (d +:+ b). by rewrite !append_assoc.
Qed.

Lemma includes_empty s : Students.includes s "" = true.
Proof. apply includes_spec. by exists "", s. Qed.

Lemma matches_refine toLowerCase t1 t2 student :
  Students.includes (toLowerCase t2) (toLowerCase t1) = true ->
  Students.matches toLowerCase t2 student = true ->
  Students.matches toLowerCase t1 student = true.
Proof.
  intros H. unfold Students.matches. rewrite !orb_true_iff.
  intros [[[H1 | H1] | H1] | H1];
    [left; left; left | left; left; right | left; right | right];
    by apply (includes_trans _ _ _ H1).
Qed.

(** The search box with an empty term shows every student (the lower-case
    form of the empty string being empty). *)
Theorem filteredStudents_empty_term (toLowerCase : string -> string)
    (students : list Students.StudentRow) :
  toLowerCase "" = "" ->
  Students.filteredStudents toLowerCase "" students = students.
Proof.
  intros H. unfold Students.filteredStudents.
  induction students as [|x xs IH]; [reflexivity |]. simpl.
  unfold Students.matches at 1. rewrite H, includes_empty. simpl.
  by rewrite IH.
Qed.

Lemma filteredStudents_empty_term_witness :
  let row := Students.mkStudentRow "Ana" "Ruiz" "A12345" "2015-03-01" "3A" 30000
               "admin-1" in
  Students.filteredStudents (fun s => s) "" [row] = [row].
Proof.
  intros row. apply (filteredStudents_empty_term (fun s => s)). reflexivity.
Defined.

(** Refining the search never adds a student: when the lower-case form of
    one term occurs in the lower-case form of another, every student shown
    for the longer term is shown for the shorter one, and searching the
    longer term among the results of the shorter one gives the same list as
    searching it among all students. *)
Theorem filteredStudents_refine (toLowerCase : string -> string)
    (shorter longer : string) (students : list Students.StudentRow) :
  Students.includes (toLowerCase longer) (toLowerCase shorter) = true ->
  (forall student,
     In student (Students.filteredStudents toLowerCase longer students) ->
     In student (Students.filteredStudents toLowerCase shorter students))
  /\ Students.filteredStudents toLowerCase longer
       (Students.filteredStudents toLowerCase shorter students)
     = Students.filteredStudents toLowerCase longer students.
Proof.
  intros H. unfold Students.filteredStudents. split.
  - intros student Hin. apply List.filter_In in Hin as [Hin Hm].
    apply List.filter_In. split; [exact Hin |].
    by apply (matches_refine toLowerCase shorter longer).
  - induction students as [|x xs IH]; [reflexivity |]. simpl.
    destruct (Students.matches toLowerCase longer x) eqn:E2.
    + rewrite (matches_refine toLowerCase shorter longer x H E2). simpl.
      by rewrite E2, IH.
    + destruct (Students.matches toLowerCase shorter x); [| exact IH].
      simpl. by rewrite E2.
Qed.

Lemma filteredStudents_refine_witness :
  let rows :=
    [Students.mkStudentRow "ana" "ruiz" "a12345" "2015-03-01" "3a" 30000 "admin-1";
     Students.mkStudentRow "andres" "lopez" "b00001" "2014-07-09" "4b" 25000
       "admin-1"] in
  Students.includes "ana" "an" = true
  /\ Students.filteredStudents (fun s => s) "ana"
       (Students.filteredStudents (fun s => s) "an" rows)
     = Students.filteredStudents (fun s => s) "ana" rows.
Proof.
  intros rows.
  assert (H : Students.includes "ana" "an" = true) by reflexivity.
  split; [exact H |].
  destruct (filteredStudents_refine (fun s => s) "an" "ana" rows H) as [_ He].
  exact He.
Defined.

(** ** A newly registered student on the other pages *)

(** A student that the registration form has just sent to the store, and
    for whom the payments table holds no record yet, appears on the
    payments page with a total paid of 0 and a balance equal to the
    tuition, which is not negative; the status is Unpaid, or Paid when the
    tuition is 0, never PartialPayment, and the dashboard counts the
    student as pending exactly when the tuition is positive. *)
Theorem registered_student_row (formData : Students.FormData)
    (user : option string) (studentAnswer : string + string)
    (parentError : option string) (row : Students.StudentRow)
    (new_id : string) (table : list Payment) :
  Students.studentInsert
    (Students.handleSubmit formData user studentAnswer parentError)
  = Some row ->
  payments_of new_id table = [] ->
  let s := mkStudent new_id (Students.total_tuition row) in
  let r := Payments.with_status (Payments.studentPayments table) s in
  Payments.totalPaid r = 0
  /\ Payments.balance r = Number (Students.total_tuition row)
  /\ 0 <= Payments.balance r
  /\ Payments.status r <> PartialPayment
  /\ (Payments.status r = Paid <-> Students.total_tuition row = 0)
  /\ (Dashboard.is_pending
        (Dashboard.paymentsByStudent (Dashboard.payments_loop table)) s = true
      <-> 0 < Students.total_tuition row).
Proof.
  intros H Hnone s r.
  apply handleSubmit_sent_row in H as (Hv & uid & _ & ->).
  apply studentSchema_valid in Hv as (_ & _ & _ & _ & _ & Ht & _).
  simpl Students.total_tuition in *.
  set (T := Students.totalTuition formData) in *.
  assert (Hpaid : paid_of table s = 0).
  { unfold paid_of, s. simpl id. by rewrite Hnone. }
  assert (Hb : Payments.balance r = Number T).
  { unfold r. rewrite page_balance_detail. unfold s at 2. simpl id.
    rewrite Hnone. unfold StudentDetail.balance. rewrite totalPaid_nil.
    apply sub_0_r, Number_is_double. }
  assert (Hst : Payments.status r = classify (Number T) 0).
  { unfold r. rewrite page_status_paid, Hpaid. reflexivity. }
  pose proof (Number_pos_iff T) as Hpos.
  pose proof (Number_neg_iff T) as Hneg.
  pose proof (Number_zero_iff T) as Hzero.
  split.
  { unfold r. rewrite page_totalPaid_detail. exact Hpaid. }
  split; [exact Hb |].
  split; [rewrite Hb; lia |].
  split.
  { rewrite Hst. intros E. apply classify_PartialPayment in E as [_ E]. lia. }
  split.
  { rewrite Hst, classify_Paid. lia. }
  rewrite paymentsByStudent_studentPayments, is_pending_paid, Hpaid.
  exact Hpos.
Qed.

Lemma registered_student_row_witness :
  let formData :=
    Students.mkFormData "Ana" "Ruiz" "A12345" "2015-03-01" "3A" 30000
      "Luis Ruiz" "B67890" "5551234567" "" in
  let row :=
    Students.mkStudentRow "Ana" "Ruiz" "A12345" "2015-03-01" "3A" 30000
      "admin-1" in
  let table := [mkPayment "uuid-0" 5000] in
  Students.studentInsert
    (Students.handleSubmit formData (Some "admin-1"%string)
       (inl "uuid-1"%string) None) = Some row
  /\ payments_of "uuid-1" table = []
  /\ Payments.status
       (Payments.with_status (Payments.studentPayments table)
          (mkStudent "uuid-1" (Students.total_tuition row)))
     <> PartialPayment.
Proof.
  intros formData row table.
  assert (H : Students.studentInsert
                (Students.handleSubmit formData (Some "admin-1"%string)
                   (inl "uuid-1"%string) None) = Some row)
    by (vm_compute; reflexivity).
  assert (Hnone : payments_of "uuid-1" table = []) by reflexivity.
  split; [exact H |]. split; [exact Hnone |].
  destruct (registered_student_row formData _ _ _ row "uuid-1" table H Hnone)
    as (_ & _ & _ & Hs & _).
  exact Hs.
Defined.
